(** * Interaction router of the OIDC provider example

    A shallow embedding of [src/index.ts] (the second module of the file,
    the interaction router): the debug serializer with its module-level key
    set, the error renderer, the error-catching middleware and the seven
    route handlers.  Handlers are written in a small state-and-exception
    monad that also records every call made on an external collaborator
    (the OIDC engine, the account store, the federated client, the Koa
    context) in the order the source makes it. *)

From stdpp Require Import base strings gmap list.
From Stdlib Require Import ZArith Lia Ascii.
From Stdlib.Strings Require Byte.

Set Warnings "-register-all,-notation-for-abbreviation,-clear-no-such-hyp".

Open Scope string_scope.
Open Scope list_scope.

(* ===================================================================== *)
(** ** JavaScript values *)
(* ===================================================================== *)

(** The JSON-like fragment of JavaScript values the router touches.  An
    object is the list of its own properties with distinct names, in the
    order [Object.entries] enumerates them. *)
Inductive JsVal : Type :=
| JUndefined
| JNull
| JBool (b : bool)
| JNum (n : Z)
| JStr (s : string)
| JArr (items : list JsVal)
| JObj (props : list (string * JsVal)).

Notation obj := (list (string * JsVal)).

(** [o[k]]: reading a missing property gives [undefined]. *)
Fixpoint obj_get (k : string) (o : obj) : JsVal :=
  match o with
  | [] => JUndefined
  | (k', v) :: o' => if String.eqb k k' then v else obj_get k o'
  end.

(** [o[k] = v]: an existing property keeps its place, a new one goes last. *)
Fixpoint obj_set {A : Type} (k : string) (v : A) (o : list (string * A))
  : list (string * A) :=
  match o with
  | [] => [(k, v)]
  | (k', v') :: o' =>
      if String.eqb k k' then (k, v) :: o' else (k', v') :: obj_set k v o'
  end.

(** [Object.keys(o)]. *)
Definition obj_keys {A : Type} (o : list (string * A)) : list string :=
  map fst o.

(** JavaScript truthiness, as tested by [if (x)] and [x ? a : b]. *)
Definition truthy (v : JsVal) : bool :=
  match v with
  | JUndefined | JNull => false
  | JBool b => b
  | JNum n => negb (n =? 0)%Z
  | JStr s => negb (String.eqb s "")
  | JArr _ | JObj _ => true
  end.

(** [v === s] for a string literal [s], as in [switch]/[case]. *)
Definition js_is (v : JsVal) (s : string) : bool :=
  match v with
  | JStr s' => String.eqb s' s
  | _ => false
  end.

(** lodash [isEmpty]: [null]/[undefined] and primitives other than strings
    are empty; strings, arrays and objects are empty when they have no
    characters, elements or own properties. *)
Definition isEmpty (v : JsVal) : bool :=
  match v with
  | JUndefined | JNull | JBool _ | JNum _ => true
  | JStr s => String.eqb s ""
  | JArr items => match items with [] => true | _ => false end
  | JObj props => match props with [] => true | _ => false end
  end.

(* ===================================================================== *)
(** ** Strings *)
(* ===================================================================== *)

Definition dquote : string := String "034"%char "".
Definition newline : string := String "010"%char "".

(** [s.split(sep)] for a one-character separator. *)
Fixpoint split_on (sep : ascii) (s : string) : list string :=
  match s with
  | "" => [""]
  | String c s' =>
      if Ascii.eqb c sep then "" :: split_on sep s'
      else match split_on sep s' with
           | [] => [String c ""]
           | w :: ws => String c w :: ws
           end
  end.

(** [parts.join(sep)]. *)
Definition join (sep : string) (parts : list string) : string :=
  String.concat sep parts.

(** Every character of [s] satisfies [p]. *)
Fixpoint string_forall (p : ascii → bool) (s : string) : bool :=
  match s with
  | "" => true
  | String c s' => p c && string_forall p s'
  end.

(** Character [c] occurs in [s]. *)
Definition has_char (c : ascii) (s : string) : bool :=
  negb (string_forall (λ c', negb (Ascii.eqb c c')) s).

(** Letter case as the [i] flag of a regular expression folds it. *)
Definition lower (c : ascii) : ascii :=
  let n := nat_of_ascii c in
  if (65 <=? n)%nat && (n <=? 90)%nat then ascii_of_nat (n + 32) else c.

(** [s.toLowerCase()] on the letters A to Z. *)
Fixpoint lower_string (s : string) : string :=
  match s with
  | "" => ""
  | String c s' => String (lower c) (lower_string s')
  end.

(** The characters the cookie library lets through in a name, a value or
    a path: tab, 0x20 to 0x7e and 0x80 to 0xff.  A string stands for a
    JavaScript string with one character per code unit, all below 256. *)
Definition field_char (c : ascii) : bool :=
  let n := nat_of_ascii c in
  (n =? 9)%nat || ((32 <=? n)%nat && (n <=? 126)%nat) || (128 <=? n)%nat.

(** The library's [fieldContentRegExp]: one or more such characters. *)
Definition field_content (s : string) : bool :=
  negb (String.eqb s "") && string_forall field_char s.

(** [buf.toString("hex")]: two lowercase digits per byte. *)
Definition hex_digit (n : nat) : ascii :=
  nth n ["0"; "1"; "2"; "3"; "4"; "5"; "6"; "7";
         "8"; "9"; "a"; "b"; "c"; "d"; "e"; "f"]%char "0"%char.

Definition is_hex_digit (c : ascii) : bool :=
  existsb (Ascii.eqb c)
    ["0"; "1"; "2"; "3"; "4"; "5"; "6"; "7";
     "8"; "9"; "a"; "b"; "c"; "d"; "e"; "f"]%char.

Definition hex_value (c : ascii) : option nat :=
  list_find (Ascii.eqb c)
    ["0"; "1"; "2"; "3"; "4"; "5"; "6"; "7";
     "8"; "9"; "a"; "b"; "c"; "d"; "e"; "f"]%char ≫= λ p, Some p.1.

Definition byte_hi (b : Byte.byte) : ascii := hex_digit (Byte.to_nat b / 16).
Definition byte_lo (b : Byte.byte) : ascii := hex_digit (Byte.to_nat b mod 16).

Fixpoint to_hex (bs : list Byte.byte) : string :=
  match bs with
  | [] => ""
  | b :: bs' => String (byte_hi b) (String (byte_lo b) (to_hex bs'))
  end.

(** Decoding two hexadecimal digits, the inverse of one step of [to_hex]. *)
Definition unhex_pair (hi lo : ascii) : option Byte.byte :=
  h ← hex_value hi; l ← hex_value lo; Byte.of_nat (16 * h + l).

(* ===================================================================== *)
(** ** The debug serializer *)
(* ===================================================================== *)

(** The [encodeURIComponent] option given to [querystring.stringify]:
    strings held in the key set are wrapped in [<strong>]. *)
Definition emphasise (keys : gset string) (value : string) : string :=
  if decide (value ∈ keys) then "<strong>" +:+ value +:+ "</strong>"
  else value.

(** Node's [querystring.stringify(o, sep, eq, { encodeURIComponent })] on an
    object whose values are strings: the encoder is applied to each key and
    to each value. *)
Definition qs_stringify (o : list (string * string)) (sep eq : string)
    (encode : string → string) : string :=
  join sep (map (λ kv, encode kv.1 +:+ eq +:+ encode kv.2) o).

(** [acc[key] = text] for a string [text] on the accumulator, an object
    made by [{}]: the name [__proto__] reaches the setter inherited from
    [Object.prototype], which ignores a value that is not an object, so no
    property is created; every other name becomes an own property. *)
Definition assign_text (key text : string) (acc : list (string * string))
  : list (string * string) :=
  if String.eqb key "__proto__" then acc else obj_set key text acc.

(** One step of the [reduce] callback: the key is recorded in the
    module-level set before the emptiness test. *)
Definition debug_step (inspect : JsVal → string)
    (st : gset string * list (string * string)) (kv : string * JsVal)
  : gset string * list (string * string) :=
  let keys' := st.1 ∪ {[ kv.1 ]} in
  if isEmpty kv.2 then (keys', st.2)
  else (keys', assign_text kv.1 (inspect kv.2) st.2).

(** [debug(obj)].  [entries] is [Object.entries(obj)]; [keys] is the
    module-level [Set] before the call, and the second component of the
    result is that set after the call.  [inspect] stands for Node's
    [util.inspect(_, { depth: null })]. *)
Definition debug (inspect : JsVal → string) (entries : obj)
    (keys : gset string) : string * gset string :=
  let st := fold_left (debug_step inspect) entries (keys, []) in
  (qs_stringify st.2 "<br/>" ": " (emphasise st.1), st.1).

(** The pairs the serializer prints: one per entry whose value is not
    empty and whose name is not [__proto__], in order, with the value
    inspected. *)
Definition printed_pairs (inspect : JsVal → string) (entries : obj)
  : list (string * string) :=
  map (λ kv, (kv.1, inspect kv.2))
      (filter (λ kv, isEmpty kv.2 = false ∧ kv.1 ≠ "__proto__") entries).

(** A sample [inspect], used by the examples only (the properties below
    hold for every [inspect]).  It follows Node's documentation of
    [util.inspect] on the values the examples use: a string of printable
    characters without backslash is quoted with single quotes, or with
    double quotes when it holds a single quote and no double quote;
    [undefined], [null], booleans and empty collections print as in
    JavaScript source.  Other values are outside the sample and print as a
    placeholder. *)
Definition inspect_line (v : JsVal) : string :=
  match v with
  | JUndefined => "undefined"
  | JNull => "null"
  | JBool true => "true"
  | JBool false => "false"
  | JStr s =>
      if negb (has_char "'"%char s) then "'" +:+ s +:+ "'"
      else if negb (has_char "034"%char s) then dquote +:+ s +:+ dquote
      else "[String]"
  | JArr [] => "[]"
  | JObj [] => "{}"
  | JNum _ => "[Number]"
  | JArr _ => "[Array]"
  | JObj _ => "[Object]"
  end.

(* ===================================================================== *)
(** ** Markup carried by a string *)
(* ===================================================================== *)

(** A scanner for the tags of an HTML fragment: [cur] is [Some t] while
    inside a tag whose text so far is [t].  The result is the list of tags
    met and the scanner state at the end of the string. *)
Fixpoint scan_tags (cur : option string) (s : string)
  : list string * option string :=
  match s with
  | "" => ([], cur)
  | String c s' =>
      match cur with
      | None =>
          if Ascii.eqb c "<"%char then scan_tags (Some "") s'
          else scan_tags None s'
      | Some t =>
          if Ascii.eqb c ">"%char then
            let r := scan_tags None s' in (t :: r.1, r.2)
          else scan_tags (Some (t +:+ String c "")) s'
      end
  end.

(** The tags the serializer writes itself. *)
Definition own_tag (t : string) : bool :=
  String.eqb t "strong" || String.eqb t "/strong" || String.eqb t "br/".

Definition is_meta (c : ascii) : bool :=
  Ascii.eqb c "<"%char || Ascii.eqb c ">"%char || Ascii.eqb c "&"%char.

(** No character that HTML reads as markup in text position. *)
Definition markup_free (s : string) : bool :=
  string_forall (λ c, negb (is_meta c)) s.

(** A fragment is safe to embed when every tag in it is one of the
    serializer's own, no tag is left open, and it starts no character
    reference. *)
Definition html_safe (out : string) : bool :=
  let r := scan_tags None out in
  forallb own_tag r.1
  && match r.2 with None => true | Some _ => false end
  && negb (has_char "&"%char out).

(* ===================================================================== *)
(** ** Errors, interactions, requests and the collaborators *)
(* ===================================================================== *)

(** What a handler can throw.  [SessionNotFound] is the engine's error
    class that the middleware tests with [instanceof]. *)
Inductive JsError : Type :=
| SessionNotFound (status : Z) (message : string)
    (error_description : option string)
| AssertionError (actual : JsVal) (expected : string)
| TypeError (message : string)
| OtherError (message : string).

Inductive Outcome (A : Type) : Type :=
| Returned (a : A)
| Thrown (e : JsError).
Arguments Returned {A} a.
Arguments Thrown {A} e.

(** What [provider.interactionDetails] returns. *)
Record Interaction : Type := {
  uid : string;
  prompt : obj;
  params : obj;
  session : option obj
}.

Record Account : Type := { accountId : string }.

(** The options given to [ctx.cookies.set]. *)
Record CookieOpts : Type := {
  path : string;
  sameSite : option string
}.

(** The inbound request: the [:uid] route parameter, the parsed body, the
    request cookies and what [ctx.google.callbackParams(ctx.req)] extracts
    from it. *)
Record Request : Type := {
  req_uid : string;
  req_body : obj;
  req_cookies : list (string * string);
  req_callback : obj
}.

(** The state a request can change: the module-level key set of [debug],
    the number of random bytes drawn so far, and the engine's pending
    interaction for this request (absent when the engine reports that the
    interaction session is not found). *)
Record State : Type := {
  keys : gset string;
  drawn : nat;
  pending : option Interaction
}.

(** The external collaborators, which the source only calls; none of them
    is defined in the source, so each is a parameter:
    - [inspect]: Node's [util.inspect(_, { depth: null })];
    - [not_found]: status, message and description of the [SessionNotFound]
      the engine throws when no interaction is pending;
    - [Client_find]: [provider.Client.find(client_id)];
    - [Account_claims]: [provider.Account.findAccount(ctx, id)] followed by
      [account.claims("prompt", "email", { email: null }, [])], absent when
      no account is found;
    - [findByLogin], [findByFederated]: the account store of
      [./support/account], returning an account or nothing;
    - [google]: the federated client [ctx.google] as the login view gets it;
    - [callback]: [ctx.google.callback] and [tokenset.claims()], which
      returns the identity claims or throws;
    - [authorizationUrl]: [ctx.google.authorizationUrl] on [state], [nonce]
      and [scope];
    - [entropy]: the bytes [crypto.randomBytes] hands out, by position. *)
Record Env : Type := {
  inspect : JsVal → string;
  not_found : Z * string * option string;
  Client_find : JsVal → JsVal;
  Account_claims : JsVal → option obj;
  findByLogin : JsVal → option Account;
  findByFederated : string → obj → option Account;
  google : JsVal;
  callback : obj → JsVal → JsVal → Outcome obj;
  authorizationUrl : string → string → string → string;
  entropy : nat → Byte.byte
}.

(** Calls on collaborators and writes to the response, in source order. *)
Inductive Event : Type :=
| EvSetHeader (field value : string)
| EvStatus (code : Z)
| EvType (type : string)
| EvBody (body : string)
| EvInteractionDetails
| EvClientFind (client_id : JsVal)
| EvFindAccount (account_id : JsVal)
| EvRender (view : string) (locals : obj)
| EvNext
| EvFindByLogin (login : JsVal)
| EvCallbackParams
| EvCookieGet (name : string)
| EvCookieSet (name value : string) (opts : CookieOpts)
| EvTokenExchange (callback_params : obj) (state nonce : JsVal)
| EvFindByFederated (provider : string) (claims : obj)
| EvRandomBytes (size : nat)
| EvRedirect (url : string)
| EvSave (interaction : Interaction)
| EvInteractionFinished (result : JsVal) (mergeWithLastSubmission : bool).

(* ===================================================================== *)
(** ** The handler monad *)
(* ===================================================================== *)

(** A computation maps the state before to an outcome, the state after and
    the events it emitted. *)
Definition M (A : Type) : Type := State → Outcome A * State * list Event.

Definition ret {A : Type} (a : A) : M A := λ s, (Returned a, s, []).

Definition bind {A B : Type} (m : M A) (k : A → M B) : M B :=
  λ s,
    match m s with
    | (Returned a, s', t) =>
        let r := k a s' in (r.1.1, r.1.2, t ++ r.2)
    | (Thrown e, s', t) => (Thrown e, s', t)
    end.

#[export] Instance M_ret : MRet M := @ret.
#[export] Instance M_bind : MBind M := λ A B k m, bind m k.

Definition throw {A : Type} (e : JsError) : M A := λ s, (Thrown e, s, []).

(** [try { body } catch (err) { handler(err) }]. *)
Definition try_catch {A : Type} (body : M A) (handler : JsError → M A)
  : M A :=
  λ s,
    match body s with
    | (Thrown e, s', t) =>
        let r := handler e s' in (r.1.1, r.1.2, t ++ r.2)
    | r => r
    end.

Definition emit (ev : Event) : M unit := λ s, (Returned tt, s, [ev]).

Definition outcome {A : Type} (r : Outcome A * State * list Event)
  : Outcome A := r.1.1.
Definition final {A : Type} (r : Outcome A * State * list Event)
  : State := r.1.2.
Definition events {A : Type} (r : Outcome A * State * list Event)
  : list Event := r.2.

(* ===================================================================== *)
(** ** Calls on the collaborators *)
(* ===================================================================== *)

Definition session_not_found (env : Env) : JsError :=
  SessionNotFound (not_found env).1.1 (not_found env).1.2 (not_found env).2.

(** [provider.interactionDetails(ctx.req, ctx.res)]. *)
Definition interactionDetails (env : Env) : M Interaction :=
  λ s,
    match pending s with
    | Some i => (Returned i, s, [EvInteractionDetails])
    | None => (Thrown (session_not_found env), s, [EvInteractionDetails])
    end.

(** [provider.interactionFinished(ctx.req, ctx.res, result,
    { mergeWithLastSubmission })]: the call is recorded with its arguments;
    like [interactionDetails], the engine throws when no interaction is
    pending. *)
Definition interactionFinished (env : Env) (result : JsVal)
    (mergeWithLastSubmission : bool) : M unit :=
  λ s,
    let ev := EvInteractionFinished result mergeWithLastSubmission in
    match pending s with
    | Some _ => (Returned tt, s, [ev])
    | None => (Thrown (session_not_found env), s, [ev])
    end.

(** [interaction.save()]: the mutated record replaces the engine's. *)
Definition save (i : Interaction) : M unit :=
  λ s,
    (Returned tt,
     {| keys := keys s; drawn := drawn s; pending := Some i |},
     [EvSave i]).

(** [debug(o)] on the module-level key set. *)
Definition debugM (env : Env) (o : obj) : M string :=
  λ s,
    let r := debug (inspect env) o (keys s) in
    (Returned r.1,
     {| keys := r.2; drawn := drawn s; pending := pending s |}, []).

(** [assert.equal(name, expected)] of the strict [assert]. *)
Definition assert_equal (actual : JsVal) (expected : string) : M unit :=
  if js_is actual expected then ret tt
  else throw (AssertionError actual expected).

(** The value of request cookie [name], [undefined] when it is not sent. *)
Definition request_cookie (req : Request) (name : string) : JsVal :=
  match list_find (λ kv, bool_decide (kv.1 = name)) (req_cookies req) with
  | Some (_, (_, v)) => JStr v
  | None => JUndefined
  end.

(** [ctx.cookies.get(name)] reads the request's cookies. *)
Definition cookies_get (req : Request) (name : string) : M JsVal :=
  _ ← emit (EvCookieGet name);
  ret (request_cookie req name).

(** What the constructor of the cookie library checks, in its order: the
    name; the value when it is not empty; the path when it is not empty;
    the [sameSite] option when it is given. *)
Definition cookie_rejected (name value : string) (opts : CookieOpts)
  : option string :=
  if negb (field_content name) then Some "argument name is invalid"
  else if negb (String.eqb value "") && negb (field_content value)
  then Some "argument value is invalid"
  else if negb (String.eqb (path opts) "") && negb (field_content (path opts))
  then Some "option path is invalid"
  else
    match sameSite opts with
    | Some v =>
        if String.eqb (lower_string v) "strict"
           || String.eqb (lower_string v) "lax"
           || String.eqb (lower_string v) "none"
        then None
        else Some "option sameSite is invalid"
    | None => None
    end.

(** [ctx.cookies.set(name, value, opts)]: throws a type error when the
    library rejects the cookie, and writes the response cookie otherwise. *)
Definition cookies_set (name value : string) (opts : CookieOpts) : M unit :=
  match cookie_rejected name value opts with
  | Some message => throw (TypeError message)
  | None => emit (EvCookieSet name value opts)
  end.

(** The [n] bytes of the entropy source from position [from] on. *)
Definition draw (env : Env) (from n : nat) : list Byte.byte :=
  map (entropy env) (seq from n).

(** [crypto.randomBytes(n)]. *)
Definition randomBytes (env : Env) (n : nat) : M (list Byte.byte) :=
  λ s,
    (Returned (draw env (drawn s) n),
     {| keys := keys s; drawn := (drawn s + n)%nat; pending := pending s |},
     [EvRandomBytes n]).

(** [ctx.google.callback(undefined, callbackParams, { state, nonce,
    response_type: "id_token" })] followed by [tokenset.claims()]. *)
Definition google_callback (env : Env) (cbp : obj) (state nonce : JsVal)
  : M obj :=
  λ s, (callback env cbp state nonce, s, [EvTokenExchange cbp state nonce]).

(* ===================================================================== *)
(** ** The error renderer and the middleware *)
(* ===================================================================== *)

(** A template literal prints an absent value as [undefined]. *)
Definition template_value (v : option string) : string :=
  match v with
  | Some s => s
  | None => "undefined"
  end.

Definition page_head : string :=
  join newline
    [ "<!DOCTYPE html>";
      "<head>";
      "  <meta charset=" +:+ dquote +:+ "utf-8" +:+ dquote +:+ ">";
      "  <title>oops! something went wrong</title>";
      "  <meta name=" +:+ dquote +:+ "viewport" +:+ dquote +:+ " content="
        +:+ dquote
        +:+ "width=device-width, initial-scale=1, shrink-to-fit=no"
        +:+ dquote +:+ ">";
      "  <meta http-equiv=" +:+ dquote +:+ "x-ua-compatible" +:+ dquote
        +:+ " content=" +:+ dquote +:+ "ie=edge" +:+ dquote +:+ ">";
      "  <style>";
      "    @import url(https://fonts.googleapis.com/css?family=Roboto:400,100);"
        +:+ "h1{font-weight:100;text-align:center;font-size:2.3em}"
        +:+ "body{font-family:Roboto,sans-serif;margin-top:25px;"
        +:+ "margin-bottom:25px}"
        +:+ ".container{padding:0 40px 10px;width:274px;"
        +:+ "background-color:#F7F7F7;margin:0 auto 10px;border-radius:2px;"
        +:+ "box-shadow:0 2px 2px rgba(0,0,0,.3);overflow:hidden}"
        +:+ "pre{white-space:pre-wrap;white-space:-moz-pre-wrap;"
        +:+ "white-space:-pre-wrap;white-space:-o-pre-wrap;"
        +:+ "word-wrap:break-word;margin:0 0 0 1em;text-indent:-1em}";
      "  </style>";
      "</head>";
      "<body>";
      "  <div class=" +:+ dquote +:+ "container" +:+ dquote +:+ ">";
      "    <h1>oops! something went wrong</h1>";
      "    " ].

Definition page_tail : string :=
  join newline [ ""; "  </div>"; "</body>"; "</html>" ].

(** One [<pre>] line of the error page. *)
Definition error_line (kv : string * option string) : string :=
  "<pre><strong>" +:+ kv.1 +:+ "</strong>: " +:+ template_value kv.2
  +:+ "</pre>".

Definition error_page (out : list (string * option string)) : string :=
  page_head +:+ join "" (map error_line out) +:+ page_tail.

(** [renderError(ctx, out, error)], with [out] as its only caller builds
    it: property names with string or absent values. *)
Definition renderError (out : list (string * option string)) : M unit :=
  _ ← emit (EvType "html");
  emit (EvBody (error_page out)).

(** The function given to [router.use]. *)
Definition use_no_cache (next : M unit) : M unit :=
  _ ← emit (EvSetHeader "Pragma" "no-cache");
  _ ← emit (EvSetHeader "Cache-Control" "no-cache, no-store");
  try_catch next
    (λ err,
       match err with
       | SessionNotFound status message error_description =>
           _ ← emit (EvStatus status);
           renderError [ ("error", Some message);
                         ("error_description", error_description) ]
       | _ => throw err
       end).

(* ===================================================================== *)
(** ** The route handlers *)
(* ===================================================================== *)

(** [session ? debug(session) : undefined]. *)
Definition session_panel (env : Env) (sess : option obj) : M JsVal :=
  match sess with
  | Some se => d ← debugM env se; ret (JStr d)
  | None => ret JUndefined
  end.

(** [{ params: debug(params), prompt: debug(prompt) }]. *)
Definition dbg_panel (env : Env) (i : Interaction) : M JsVal :=
  p ← debugM env (params i);
  q ← debugM env (prompt i);
  ret (JObj [ ("params", JStr p); ("prompt", JStr q) ]).

(** The result of a login, shared by the login and federated routes. *)
Definition login_result (account : option Account) : JsVal :=
  match account with
  | Some a =>
      JObj [ ("select_account", JObj []);
             ("login", JObj [ ("account", JStr (accountId a)) ]) ]
  | None => JObj []
  end.

(** [router.get("/interaction/:uid")]. *)
Definition get_interaction (env : Env) (req : Request) (next : M unit)
  : M unit :=
  i ← interactionDetails env;
  _ ← emit (EvClientFind (obj_get "client_id" (params i)));
  let client := Client_find env (obj_get "client_id" (params i)) in
  let name := obj_get "name" (prompt i) in
  if js_is name "select_account" then
    match session i with
    | None =>
        interactionFinished env (JObj [ ("select_account", JObj []) ]) false
    | Some se =>
        _ ← emit (EvFindAccount (obj_get "accountId" se));
        match Account_claims env (obj_get "accountId" se) with
        | None => throw (TypeError "account is undefined")
        | Some claims =>
            sp ← session_panel env (session i);
            dp ← dbg_panel env i;
            emit (EvRender "select_account"
                    [ ("client", client);
                      ("uid", JStr (uid i));
                      ("email", obj_get "email" claims);
                      ("details", obj_get "details" (prompt i));
                      ("params", JObj (params i));
                      ("title", JStr "Sign-in");
                      ("session", sp);
                      ("dbg", dp) ])
        end
    end
  else if js_is name "login" then
    sp ← session_panel env (session i);
    dp ← dbg_panel env i;
    emit (EvRender "login"
            [ ("client", client);
              ("uid", JStr (uid i));
              ("details", obj_get "details" (prompt i));
              ("params", JObj (params i));
              ("title", JStr "Sign-in");
              ("google", google env);
              ("session", sp);
              ("dbg", dp) ])
  else if js_is name "consent" then
    sp ← session_panel env (session i);
    dp ← dbg_panel env i;
    emit (EvRender "interaction"
            [ ("client", client);
              ("uid", JStr (uid i));
              ("details", obj_get "details" (prompt i));
              ("params", JObj (params i));
              ("title", JStr "Authorize");
              ("session", sp);
              ("dbg", dp) ])
  else
    _ ← emit EvNext;
    next.

(** [router.get("/interaction/callback/google")]. *)
Definition get_callback_google : M unit :=
  emit (EvRender "repost"
          [ ("provider", JStr "google"); ("layout", JBool false) ]).

(** [router.post("/interaction/:uid/login")]. *)
Definition post_login (env : Env) (req : Request) : M unit :=
  i ← interactionDetails env;
  _ ← assert_equal (obj_get "name" (prompt i)) "login";
  _ ← emit (EvFindByLogin (obj_get "login" (req_body req)));
  let account := findByLogin env (obj_get "login" (req_body req)) in
  interactionFinished env (login_result account) false.

(** The two cookie option records of the federated route. *)
Definition clear_opts (p : string) : CookieOpts :=
  {| path := p; sameSite := None |}.
Definition strict_opts (p : string) : CookieOpts :=
  {| path := p; sameSite := Some "strict" |}.

Definition federated_path (req : Request) : string :=
  "/interaction/" +:+ req_uid req +:+ "/federated".

(** The completion branch: callback parameters are present. *)
Definition federated_complete (env : Env) (req : Request) (cbp : obj)
  : M unit :=
  state ← cookies_get req "google.state";
  _ ← cookies_set "google.state" "" (clear_opts (federated_path req));
  nonce ← cookies_get req "google.nonce";
  _ ← cookies_set "google.nonce" "" (clear_opts (federated_path req));
  claims ← google_callback env cbp state nonce;
  _ ← emit (EvFindByFederated "google" claims);
  let account := findByFederated env "google" claims in
  interactionFinished env (login_result account) false.

(** The initiation branch: no callback parameters. *)
Definition federated_initiate (env : Env) (req : Request) : M unit :=
  b1 ← randomBytes env 32;
  let state := req_uid req +:+ "|" +:+ to_hex b1 in
  b2 ← randomBytes env 32;
  let nonce := to_hex b2 in
  _ ← cookies_set "google.state" state (strict_opts (federated_path req));
  _ ← cookies_set "google.nonce" nonce (strict_opts (federated_path req));
  emit (EvRedirect (authorizationUrl env state nonce "openid email profile")).

(** [router.post("/interaction/:uid/federated")]. *)
Definition post_federated (env : Env) (req : Request) : M unit :=
  i ← interactionDetails env;
  _ ← assert_equal (obj_get "name" (prompt i)) "login";
  _ ← emit EvCallbackParams;
  let callbackParams := req_callback req in
  if js_is (obj_get "provider" (req_body req)) "google" then
    match obj_keys callbackParams with
    | _ :: _ => federated_complete env req callbackParams
    | [] => federated_initiate env req
    end
  else ret tt.

(** [interaction.params.prompt = value]. *)
Definition set_prompt (i : Interaction) (value : string) : Interaction :=
  {| uid := uid i;
     prompt := prompt i;
     params := obj_set "prompt" (JStr value) (params i);
     session := session i |}.

(** The body of [if (body.switch)]. *)
Definition switch_account (i : Interaction) : M unit :=
  if truthy (obj_get "prompt" (params i)) then
    match obj_get "prompt" (params i) with
    | JStr p =>
        let prompts := split_on " " p ++ [ "login" ] in
        save (set_prompt i (join " " prompts))
    | _ => throw (TypeError "split is not a function")
    end
  else save (set_prompt i "logout").

(** [router.post("/interaction/:uid/continue")]. *)
Definition post_continue (env : Env) (req : Request) : M unit :=
  i ← interactionDetails env;
  _ ← assert_equal (obj_get "name" (prompt i)) "select_account";
  _ ← (if truthy (obj_get "switch" (req_body req)) then switch_account i
       else ret tt);
  interactionFinished env (JObj [ ("select_account", JObj []) ]) false.

Definition consent_result : JsVal :=
  JObj [ ("consent",
          JObj [ ("rejectedScopes", JArr []);
                 ("rejectedClaims", JArr []);
                 ("replace", JBool false) ]) ].

(** [router.post("/interaction/:uid/confirm")]. *)
Definition post_confirm (env : Env) (req : Request) : M unit :=
  i ← interactionDetails env;
  _ ← assert_equal (obj_get "name" (prompt i)) "consent";
  interactionFinished env consent_result true.

(** [router.get("/interaction/:uid/abort")]. *)
Definition get_abort (env : Env) (req : Request) : M unit :=
  interactionFinished env
    (JObj [ ("error", JStr "access_denied");
            ("error_description", JStr "End-User aborted interaction") ])
    false.

(** The routes registered on the router. *)
Inductive Route : Type :=
| GetInteraction
| GetCallbackGoogle
| PostLogin
| PostFederated
| PostContinue
| PostConfirm
| GetAbort.

Definition handler (env : Env) (req : Request) (next : M unit)
    (r : Route) : M unit :=
  match r with
  | GetInteraction => get_interaction env req next
  | GetCallbackGoogle => get_callback_google
  | PostLogin => post_login env req
  | PostFederated => post_federated env req
  | PostContinue => post_continue env req
  | PostConfirm => post_confirm env req
  | GetAbort => get_abort env req
  end.

(** A request on route [r]: the middleware runs around the handler. *)
Definition router (env : Env) (req : Request) (next : M unit) (r : Route)
  : M unit :=
  use_no_cache (handler env req next r).

(** ** Reading an event list *)

(** The resolutions passed to the engine, in order. *)
Fixpoint resolutions (t : list Event) : list (JsVal * bool) :=
  match t with
  | [] => []
  | EvInteractionFinished r m :: t' => (r, m) :: resolutions t'
  | _ :: t' => resolutions t'
  end.

(** The views rendered, in order. *)
Fixpoint rendered (t : list Event) : list string :=
  match t with
  | [] => []
  | EvRender v _ :: t' => v :: rendered t'
  | _ :: t' => rendered t'
  end.

(** The last value written to response cookie [name], if any. *)
Fixpoint cookie_written (name : string) (t : list Event) : option string :=
  match t with
  | [] => None
  | EvCookieSet n v _ :: t' =>
      match cookie_written name t' with
      | Some v' => Some v'
      | None => if String.eqb n name then Some v else None
      end
  | _ :: t' => cookie_written name t'
  end.

(** An event is not a resolution, or it is one with merge flag [b]. *)
Definition merge_flag_is (b : bool) (ev : Event) : Prop :=
  match ev with
  | EvInteractionFinished _ m => m = b
  | _ => True
  end.

(** An event is not a resolution, or it is the resolution with result
    [res] and merge flag [b]. *)
Definition resolves_with (res : JsVal) (b : bool) (ev : Event) : Prop :=
  match ev with
  | EvInteractionFinished r m => r = res ∧ m = b
  | _ => True
  end.

(** Every event a computation emits, from any state, satisfies [P]. *)
Definition emits_only {A : Type} (P : Event → Prop) (m : M A) : Prop :=
  ∀ s, Forall P (events (m s)).

(** What the completion branch does before the token exchange. *)
Definition completion_prefix (req : Request) : list Event :=
  [ EvInteractionDetails; EvCallbackParams;
    EvCookieGet "google.state";
    EvCookieSet "google.state" "" (clear_opts (federated_path req));
    EvCookieGet "google.nonce";
    EvCookieSet "google.nonce" "" (clear_opts (federated_path req)) ].

(* ===================================================================== *)
(** ** Sample collaborators and requests *)
(* ===================================================================== *)

(** A small world used by the examples: one account [u1], known to the
    account store as login [alice] and as federated subject [g-1]; a
    federated client that accepts a callback when the [state] it carries is
    the one passed in. *)
Definition sample_env : Env :=
  {| inspect := inspect_line;
     not_found := (400%Z, "invalid_request",
                   Some "interaction session not found");
     Client_find := λ _, JObj [ ("client_name", JStr "demo") ];
     Account_claims := λ id,
       if js_is id "u1"
       then Some [ ("sub", JStr "u1"); ("email", JStr "alice@example.org") ]
       else None;
     findByLogin := λ l,
       if js_is l "alice" then Some {| accountId := "u1" |} else None;
     findByFederated := λ _ claims,
       if js_is (obj_get "sub" claims) "g-1"
       then Some {| accountId := "u1" |} else None;
     google := JObj [];
     callback := λ cbp state _,
       match state, obj_get "state" cbp with
       | JStr a, JStr b =>
           if String.eqb a b then Returned [ ("sub", JStr "g-1") ]
           else Thrown (OtherError "state mismatch")
       | _, _ => Thrown (OtherError "state missing")
       end;
     authorizationUrl := λ state nonce scope,
       "https://idp.example/auth?state=" +:+ state +:+ "&nonce=" +:+ nonce
       +:+ "&scope=" +:+ scope;
     entropy := λ n,
       match Byte.of_nat (n mod 256) with
       | Some b => b
       | None => Byte.x00
       end |}.

Definition sample_interaction (name : string) (sess : option obj)
  : Interaction :=
  {| uid := "abc";
     prompt := [ ("name", JStr name); ("details", JObj []) ];
     params := [ ("client_id", JStr "app"); ("prompt", JStr "consent") ];
     session := sess |}.

Definition sample_state (name : string) (sess : option obj) : State :=
  {| keys := ∅; drawn := 0; pending := Some (sample_interaction name sess) |}.

Definition sample_request (body : obj) (cookies : list (string * string))
    (cbp : obj) : Request :=
  {| req_uid := "abc"; req_body := body; req_cookies := cookies;
     req_callback := cbp |}.

(* ===================================================================== *)
(** ** The HTTPS filter of the application ([index.ts], production only) *)
(* ===================================================================== *)

(** What the filter reads of the Koa context. *)
Record Ctx : Type := {
  secure : bool;
  method : string;
  href : string
}.

(** What the filter does with a request: [await next()], [ctx.redirect],
    or a JSON body with a status. *)
Inductive Reply : Type :=
| Next
| Redirect (url : string)
| Json (status : Z) (body : obj).

(** The rest of [s] after the prefix [p], matched without regard to case. *)
Fixpoint strip_prefix_ci (p s : string) : option string :=
  match p with
  | "" => Some s
  | String a p' =>
      match s with
      | "" => None
      | String b s' =>
          if Ascii.eqb (lower a) (lower b) then strip_prefix_ci p' s'
          else None
      end
  end.

(** [href.replace(/^http:\/\//i, "https://")]. *)
Definition to_https (url : string) : string :=
  match strip_prefix_ci "http://" url with
  | Some rest => "https://" +:+ rest
  | None => url
  end.

(** The function given to [app.use] when [NODE_ENV] is [production]. *)
Definition https_only (ctx : Ctx) : Reply :=
  if secure ctx then Next
  else if String.eqb (method ctx) "GET" || String.eqb (method ctx) "HEAD"
  then Redirect (to_https (href ctx))
  else Json 400
         [ ("error", JStr "invalid_request");
           ("error_description",
            JStr "do yourself a favor and only use https") ].

(* ===================================================================== *)
(** ** Predicates on runs *)
(* ===================================================================== *)

(** An event that neither resolves the interaction nor renders a view. *)
Definition quiet (ev : Event) : Prop :=
  match ev with
  | EvInteractionFinished _ _ | EvRender _ _ => False
  | _ => True
  end.

(** A computation that, from any state, resolves or renders at most once
    in total. *)
Definition at_most_once {A : Type} (m : M A) : Prop :=
  ∀ s, (length (resolutions (events (m s)))
        + length (rendered (events (m s))) ≤ 1)%nat.

(** A computation whose final state is always related to its initial
    state by [R]. *)
Definition moves_by {A : Type} (R : State → State → Prop) (m : M A) : Prop :=
  ∀ s, R s (final (m s)).

(** The state may only gain keys and draw bytes. *)
Definition grows (s s' : State) : Prop :=
  keys s ⊆ keys s' ∧ (drawn s ≤ drawn s')%nat.

(** The prompt name each submission route asserts. *)
Definition asserted_prompt (r : Route) : option string :=
  match r with
  | PostLogin | PostFederated => Some "login"
  | PostContinue => Some "select_account"
  | PostConfirm => Some "consent"
  | GetInteraction | GetCallbackGoogle | GetAbort => None
  end.

(** The token exchanges called, in order, with their arguments. *)
Fixpoint exchanges (t : list Event) : list (obj * JsVal * JsVal) :=
  match t with
  | [] => []
  | EvTokenExchange cbp state nonce :: t' =>
      (cbp, state, nonce) :: exchanges t'
  | _ :: t' => exchanges t'
  end.


(** The redirects issued, in order. *)
Fixpoint redirects (t : list Event) : list string :=
  match t with
  | [] => []
  | EvRedirect url :: t' => url :: redirects t'
  | _ :: t' => redirects t'
  end.

(** What a browser sends back for a cookie the response wrote. *)
Definition echoed (written : option string) : JsVal :=
  match written with
  | Some v => JStr v
  | None => JUndefined
  end.

(** The tags of a fragment, and whether it leaves no tag open. *)
Definition tags_of (x : string) : list string := (scan_tags None x).1.
Definition tags_closed (x : string) : Prop := (scan_tags None x).2 = None.

(** The tags of one line of the error page. *)
Definition error_line_tags (kv : string * option string) : list string :=
  [ "pre"; "strong" ] ++ tags_of kv.1 ++ [ "/strong" ]
  ++ tags_of (template_value kv.2) ++ [ "/pre" ].

(** The options of the last write to response cookie [name], if any. *)
Fixpoint cookie_opts_written (name : string) (t : list Event)
  : option CookieOpts :=
  match t with
  | [] => None
  | EvCookieSet n _ o :: t' =>
      match cookie_opts_written name t' with
      | Some o' => Some o'
      | None => if String.eqb n name then Some o else None
      end
  | _ :: t' => cookie_opts_written name t'
  end.

(* ===================================================================== *)
(** * Properties *)
(* ===================================================================== *)

(** ** Strings *)

Lemma append_nil_l (s : string) : "" +:+ s = s.
Proof. reflexivity. Qed.

Lemma append_cons (c : ascii) (a b : string) :
  String c a +:+ b = String c (a +:+ b).
Proof. reflexivity. Qed.

Lemma append_nil_r (s : string) : s +:+ "" = s.
Proof.
  induction s as [|c s IH]; [done |]. by rewrite append_cons, IH.
Qed.

Lemma append_assoc (a b c : string) : (a +:+ b) +:+ c = a +:+ (b +:+ c).
Proof.
  induction a as [|x a IH]; [done |]. by rewrite !append_cons, IH.
Qed.

Lemma length_append (a b : string) :
  String.length (a +:+ b) = (String.length a + String.length b)%nat.
Proof.
  induction a as [|x a IH]; [done |]. rewrite append_cons. simpl.
  by rewrite IH.
Qed.

Lemma string_forall_append (p : ascii → bool) (a b : string) :
  string_forall p (a +:+ b) = string_forall p a && string_forall p b.
Proof.
  induction a as [|x a IH]; [done |]. rewrite append_cons. simpl.
  by rewrite IH, andb_assoc.
Qed.

Lemma has_char_append (c : ascii) (a b : string) :
  has_char c (a +:+ b) = has_char c a || has_char c b.
Proof.
  unfold has_char. rewrite string_forall_append.
  by destruct (string_forall _ a), (string_forall _ b).
Qed.

(** ** Objects as association lists *)

Lemma obj_set_fresh {A : Type} (k : string) (v : A) (o : list (string * A)) :
  k ∉ obj_keys o → obj_set k v o = o ++ [ (k, v) ].
Proof.
  induction o as [|[k' v'] o IH]; simpl; [done |].
  intros Hk. apply not_elem_of_cons in Hk as [Hne Hk].
  destruct (String.eqb_spec k k') as [->|_]; [done |].
  by rewrite IH.
Qed.

Lemma obj_get_set_eq (k : string) (v : JsVal) (o : obj) :
  obj_get k (obj_set k v o) = v.
Proof.
  induction o as [|[k' v'] o IH]; simpl.
  - by rewrite String.eqb_refl.
  - destruct (String.eqb_spec k k') as [->|Hne]; simpl.
    + by rewrite String.eqb_refl.
    + by destruct (String.eqb_spec k k').
Qed.

(** ** Splitting and joining a prompt list *)

Lemma split_on_nonempty (sep : ascii) (s : string) : split_on sep s ≠ [].
Proof.
  destruct s as [|c s]; simpl; [done |].
  destruct (Ascii.eqb c sep); [done |]. by destruct (split_on sep s).
Qed.

Lemma split_on_append (sep : ascii) (a b : string) :
  split_on sep (a +:+ String sep b) = split_on sep a ++ split_on sep b.
Proof.
  induction a as [|c a IH].
  - rewrite append_nil_l. cbn [split_on]. by rewrite Ascii.eqb_refl.
  - rewrite append_cons. cbn [split_on].
    destruct (Ascii.eqb c sep); rewrite IH; [done |].
    pose proof (split_on_nonempty sep a) as Hne.
    by destruct (split_on sep a).
Qed.

Lemma join_split (sep : ascii) (s : string) :
  join (String sep "") (split_on sep s) = s.
Proof.
  unfold join. induction s as [|c s IH]; [done |].
  cbn [split_on]. destruct (Ascii.eqb_spec c sep) as [->|Hne].
  - pose proof (split_on_nonempty sep s) as Hs.
    destruct (split_on sep s) as [|w ws]; [done |].
    cbn [String.concat]. cbn [String.concat] in IH. by rewrite IH.
  - pose proof (split_on_nonempty sep s) as Hs.
    destruct (split_on sep s) as [|w ws]; [done |].
    destruct ws as [|w' ws]; cbn [String.concat] in *.
    + by rewrite IH.
    + by rewrite append_cons, IH.
Qed.

Lemma join_snoc (sep : string) (parts : list string) (last : string) :
  parts ≠ [] →
  join sep (parts ++ [ last ]) = join sep parts +:+ sep +:+ last.
Proof.
  unfold join. induction parts as [|p parts IH]; [done |]. intros _.
  destruct parts as [|q parts]; [done |].
  change (String.concat sep ((p :: q :: parts) ++ [ last ]))
    with (p +:+ sep +:+ String.concat sep ((q :: parts) ++ [ last ])).
  rewrite IH by done.
  change (String.concat sep (p :: q :: parts))
    with (p +:+ sep +:+ String.concat sep (q :: parts)).
  by rewrite !append_assoc.
Qed.

(** The prompt the switch branch computes from a prompt string. *)
Lemma join_split_login (p : string) :
  join " " (split_on " " p ++ [ "login" ]) = p +:+ " login".
Proof.
  rewrite join_snoc by apply split_on_nonempty.
  by rewrite (join_split " " p).
Qed.

Lemma split_login_appended (p : string) :
  split_on " " (p +:+ " login") = split_on " " p ++ [ "login" ].
Proof. apply (split_on_append " " p "login"). Qed.

Lemma truthy_string (p : string) : p ≠ "" → truthy (JStr p) = true.
Proof.
  intros Hne. simpl. apply negb_true_iff. by apply String.eqb_neq.
Qed.

(** ** Hexadecimal encoding *)

Lemma unhex_byte (b : Byte.byte) :
  unhex_pair (byte_hi b) (byte_lo b) = Some b.
Proof. destruct b; reflexivity. Qed.

Lemma hex_digits_byte (b : Byte.byte) :
  is_hex_digit (byte_hi b) && is_hex_digit (byte_lo b) = true.
Proof. destruct b; reflexivity. Qed.

Lemma to_hex_inj (a b : list Byte.byte) : to_hex a = to_hex b → a = b.
Proof.
  revert b. induction a as [|x a IH]; intros [|y b] Heq;
    try done; simpl in Heq.
  injection Heq as Hhi Hlo Hrest.
  f_equal; [| by apply IH].
  pose proof (unhex_byte x) as Hx. rewrite Hhi, Hlo, unhex_byte in Hx.
  congruence.
Qed.

Lemma to_hex_length (bs : list Byte.byte) :
  String.length (to_hex bs) = (2 * length bs)%nat.
Proof. induction bs as [|b bs IH]; simpl; [done | rewrite IH; lia]. Qed.

Lemma to_hex_digits (bs : list Byte.byte) :
  string_forall is_hex_digit (to_hex bs) = true.
Proof.
  induction bs as [|b bs IH]; [done |].
  cbn [to_hex string_forall]. rewrite IH, andb_true_r.
  apply hex_digits_byte.
Qed.

Lemma draw_length (env : Env) (from n : nat) : length (draw env from n) = n.
Proof. unfold draw. by rewrite length_map, length_seq. Qed.

(** ** The key set and the accumulator of [debug] *)

Section Debug.
Variable ins : JsVal → string.

Lemma debug_fold_keys (entries : obj) (K : gset string)
    (acc : list (string * string)) :
  (fold_left (debug_step ins) entries (K, acc)).1
  = K ∪ list_to_set (obj_keys entries).
Proof.
  revert K acc. induction entries as [|[k v] entries IH]; intros K acc.
  - simpl. set_solver.
  - simpl. unfold debug_step at 2. simpl.
    destruct (isEmpty v); rewrite IH; set_solver.
Qed.

Lemma debug_fold_acc (entries : obj) (K : gset string)
    (acc : list (string * string)) :
  NoDup (obj_keys entries) →
  (∀ k, k ∈ obj_keys entries → k ∉ obj_keys acc) →
  (fold_left (debug_step ins) entries (K, acc)).2
  = acc ++ printed_pairs ins entries.
Proof.
  revert K acc. induction entries as [|[k v] entries IH];
    intros K acc Hnd Hfresh.
  - simpl. by rewrite app_nil_r.
  - simpl in Hnd. apply NoDup_cons in Hnd as [Hk Hnd].
    cbn [fold_left]. unfold debug_step at 2. cbn [fst snd].
    unfold printed_pairs. rewrite filter_cons. cbn [fst snd].
    assert (Hrest : ∀ k', k' ∈ obj_keys entries → k' ∉ obj_keys acc).
    { intros k' Hk'. apply Hfresh. simpl. by right. }
    destruct (isEmpty v) eqn:Hv.
    + rewrite decide_False by (intros [? _]; done).
      by rewrite IH.
    + unfold assign_text.
      destruct (String.eqb_spec k "__proto__") as [->|Hproto].
      * rewrite decide_False by (intros [_ ?]; done).
        by rewrite IH.
      * rewrite decide_True by done. cbn [map fst snd].
        rewrite obj_set_fresh by (apply Hfresh; simpl; by left).
        rewrite IH; [by rewrite <- app_assoc | done |].
        intros k' Hk'. unfold obj_keys. rewrite fmap_app. simpl.
        intros [Hin | Hin%list_elem_of_singleton]%elem_of_app.
        -- revert Hin. by apply Hrest.
        -- subst k'. by apply Hk.
Qed.

Lemma debug_keys (entries : obj) (K : gset string) :
  (debug ins entries K).2 = K ∪ list_to_set (obj_keys entries).
Proof. unfold debug. simpl. apply debug_fold_keys. Qed.

Lemma printed_pairs_keys (entries : obj) (kv : string * string) :
  kv ∈ printed_pairs ins entries → kv.1 ∈ obj_keys entries.
Proof.
  unfold printed_pairs. intros Hin.
  apply list_elem_of_fmap in Hin as [[k v] [-> Hin]].
  apply list_elem_of_filter in Hin as [_ Hin]. simpl.
  unfold obj_keys. apply list_elem_of_fmap. by exists (k, v).
Qed.

(** The output of one call, pair by pair. *)
Lemma debug_output (entries : obj) (K : gset string) :
  NoDup (obj_keys entries) →
  (debug ins entries K).1
  = join "<br/>"
      (map (λ kv, "<strong>" +:+ kv.1 +:+ "</strong>: "
                  +:+ emphasise (K ∪ list_to_set (obj_keys entries)) kv.2)
           (printed_pairs ins entries)).
Proof.
  intros Hnd. unfold debug. simpl.
  rewrite debug_fold_keys.
  rewrite debug_fold_acc by (done || (intros; apply not_elem_of_nil)).
  simpl. unfold qs_stringify. f_equal.
  apply map_ext_in. intros kv Hin%list_elem_of_In%printed_pairs_keys.
  unfold emphasise at 1.
  rewrite decide_True by set_solver.
  by rewrite !append_assoc.
Qed.
End Debug.

(** ** Tags of a concatenation *)

Lemma scan_tags_append (cur : option string) (a b : string) :
  scan_tags cur (a +:+ b)
  = ((scan_tags cur a).1 ++ (scan_tags (scan_tags cur a).2 b).1,
     (scan_tags (scan_tags cur a).2 b).2).
Proof.
  revert cur. induction a as [|c a IH]; intros cur.
  - rewrite append_nil_l. simpl. by destruct (scan_tags cur b).
  - rewrite append_cons. simpl. destruct cur as [t|].
    + destruct (Ascii.eqb c ">"); [| apply IH].
      rewrite IH. simpl. done.
    + destruct (Ascii.eqb c "<"); apply IH.
Qed.

Lemma markup_free_scan (s : string) :
  markup_free s = true → scan_tags None s = ([], None).
Proof.
  unfold markup_free, is_meta. induction s as [|c s IH]; [done |].
  simpl. intros [Hc Hs]%andb_true_iff.
  destruct (Ascii.eqb c "<"); [done |]. by apply IH.
Qed.

Lemma string_forall_impl (p q : ascii → bool) (s : string) :
  (∀ c, p c = true → q c = true) →
  string_forall p s = true → string_forall q s = true.
Proof.
  intros Hpq. induction s as [|c s IH]; [done |].
  cbn [string_forall]. intros [Hc Hs]%andb_true_iff.
  by rewrite (Hpq c Hc), (IH Hs).
Qed.

Lemma markup_free_no_amp (s : string) :
  markup_free s = true → has_char "&" s = false.
Proof.
  unfold markup_free, has_char. intros H.
  apply negb_false_iff. revert H. apply string_forall_impl.
  intros c. unfold is_meta. rewrite (Ascii.eqb_sym "&" c).
  destruct (Ascii.eqb c "&"); [| done]. by rewrite !orb_true_r.
Qed.

Lemma html_safe_markup_free (s : string) :
  markup_free s = true → html_safe s = true.
Proof.
  intros H. unfold html_safe.
  by rewrite (markup_free_scan s H), (markup_free_no_amp s H).
Qed.

Lemma html_safe_append (a b : string) :
  html_safe a = true → html_safe b = true → html_safe (a +:+ b) = true.
Proof.
  unfold html_safe. rewrite scan_tags_append, has_char_append. simpl.
  destruct (scan_tags None a) as [ta [ca|]]; simpl;
    [by rewrite andb_false_r |].
  destruct (scan_tags None b) as [tb [cb|]]; simpl;
    [by rewrite !andb_false_r |].
  rewrite forallb_app.
  intros [[-> _]%andb_true_iff ->%negb_true_iff]%andb_true_iff.
  by intros [[-> _]%andb_true_iff ->%negb_true_iff]%andb_true_iff.
Qed.

Lemma html_safe_join (sep : string) (parts : list string) :
  html_safe sep = true →
  Forall (λ p, html_safe p = true) parts →
  html_safe (join sep parts) = true.
Proof.
  intros Hsep. unfold join.
  induction parts as [|p parts IH]; intros Hall; [done |].
  apply Forall_cons in Hall as [Hp Hall]. simpl.
  destruct parts as [|q parts]; [done |].
  apply html_safe_append; [done |].
  apply html_safe_append; [done |]. by apply IH.
Qed.

Lemma html_safe_emphasise (K : gset string) (v : string) :
  markup_free v = true → html_safe (emphasise K v) = true.
Proof.
  intros Hv. unfold emphasise. destruct (decide (v ∈ K)).
  - apply html_safe_append; [done |].
    apply html_safe_append; [by apply html_safe_markup_free | done].
  - by apply html_safe_markup_free.
Qed.


(* ===================================================================== *)
(** ** Running the handlers *)
(* ===================================================================== *)

(** Unfolds the monad and the collaborator calls in the goal. *)
Ltac unfold_run :=
  cbv beta iota zeta delta
    [ router handler use_no_cache renderError
      get_interaction get_callback_google post_login post_federated
      post_continue post_confirm get_abort
      federated_complete federated_initiate switch_account
      session_panel dbg_panel debugM
      cookies_get cookies_set google_callback randomBytes save
      interactionDetails interactionFinished assert_equal
      try_catch emit throw mbind M_bind bind mret M_ret ret
      events outcome final fst snd ].

(** *** Complete runs of the login and federated handlers *)

Lemma post_login_run (env : Env) (req : Request) (s : State)
    (i : Interaction) :
  pending s = Some i →
  obj_get "name" (prompt i) = JStr "login" →
  post_login env req s
  = (Returned tt, s,
     [ EvInteractionDetails;
       EvFindByLogin (obj_get "login" (req_body req));
       EvInteractionFinished
         (login_result (findByLogin env (obj_get "login" (req_body req))))
         false ]).
Proof.
  intros Hp Hname. unfold_run. rewrite Hp, Hname. simpl. by rewrite Hp.
Qed.

(** *** What the cookie library accepts *)

Lemma hex_digit_field_char (c : ascii) :
  is_hex_digit c = true → field_char c = true.
Proof.
  unfold is_hex_digit. cbn [existsb]. rewrite !orb_true_iff.
  intros H; repeat destruct H as [H|H]; try done;
    apply Ascii.eqb_eq in H; by subst c.
Qed.

Lemma to_hex_field_chars (bs : list Byte.byte) :
  string_forall field_char (to_hex bs) = true.
Proof.
  apply (string_forall_impl is_hex_digit);
    [apply hex_digit_field_char | apply to_hex_digits].
Qed.

Lemma field_content_chars (v : string) :
  string_forall field_char v = true →
  negb (String.eqb v "") && negb (field_content v) = false.
Proof.
  intros Hv. unfold field_content. rewrite Hv.
  by destruct (String.eqb v "").
Qed.

Lemma field_content_not_chars (v : string) :
  string_forall field_char v = false →
  negb (String.eqb v "") && negb (field_content v) = true.
Proof.
  intros Hv. unfold field_content. rewrite Hv.
  destruct (String.eqb_spec v "") as [->|_]; [done |].
  by rewrite andb_false_r.
Qed.

Lemma federated_path_chars (req : Request) :
  string_forall field_char (federated_path req)
  = string_forall field_char (req_uid req).
Proof.
  unfold federated_path. rewrite !string_forall_append.
  change (string_forall field_char "/interaction/") with true.
  change (string_forall field_char "/federated") with true.
  by rewrite andb_true_r.
Qed.

Lemma state_value_chars (uid : string) (bs : list Byte.byte) :
  string_forall field_char (uid +:+ "|" +:+ to_hex bs)
  = string_forall field_char uid.
Proof.
  rewrite !string_forall_append, to_hex_field_chars.
  change (string_forall field_char "|") with true.
  by rewrite !andb_true_r.
Qed.

(** A cookie of the federated route is accepted when its value and its
    path hold accepted characters only. *)
Lemma cookie_accepted (name value : string) (opts : CookieOpts) :
  name = "google.state" ∨ name = "google.nonce" →
  opts = clear_opts (path opts) ∨ opts = strict_opts (path opts) →
  string_forall field_char value = true →
  string_forall field_char (path opts) = true →
  cookies_set name value opts = emit (EvCookieSet name value opts).
Proof.
  intros Hname Hopts Hv Hp. unfold cookies_set, cookie_rejected.
  rewrite (field_content_chars _ Hv), (field_content_chars _ Hp).
  destruct Hname as [-> | ->]; destruct Hopts as [-> | ->]; reflexivity.
Qed.

Lemma clearing_rejected (name : string) (p : string) :
  name = "google.state" ∨ name = "google.nonce" →
  string_forall field_char p = false →
  cookies_set name "" (clear_opts p)
  = throw (TypeError "option path is invalid").
Proof.
  intros Hname Hp. unfold cookies_set, cookie_rejected. cbn [path clear_opts].
  rewrite (field_content_not_chars _ Hp).
  by destruct Hname as [-> | ->].
Qed.

Lemma state_rejected (value p : string) :
  string_forall field_char value = false →
  cookies_set "google.state" value (strict_opts p)
  = throw (TypeError "argument value is invalid").
Proof.
  intros Hv. unfold cookies_set, cookie_rejected.
  by rewrite (field_content_not_chars _ Hv).
Qed.

(** *** Complete runs of the federated handler *)

Lemma post_federated_complete_run (env : Env) (req : Request) (s : State)
    (i : Interaction) :
  pending s = Some i →
  obj_get "name" (prompt i) = JStr "login" →
  obj_get "provider" (req_body req) = JStr "google" →
  obj_keys (req_callback req) ≠ [] →
  string_forall field_char (req_uid req) = true →
  post_federated env req s
  = match callback env (req_callback req)
            (request_cookie req "google.state")
            (request_cookie req "google.nonce") with
    | Returned claims =>
        (Returned tt, s,
         completion_prefix req
         ++ [ EvTokenExchange (req_callback req)
                (request_cookie req "google.state")
                (request_cookie req "google.nonce");
              EvFindByFederated "google" claims;
              EvInteractionFinished
                (login_result (findByFederated env "google" claims))
                false ])
    | Thrown e =>
        (Thrown e, s,
         completion_prefix req
         ++ [ EvTokenExchange (req_callback req)
                (request_cookie req "google.state")
                (request_cookie req "google.nonce") ])
    end.
Proof.
  intros Hp Hname Hprov Hcb Huid.
  rewrite <- federated_path_chars in Huid.
  unfold post_federated, federated_complete.
  rewrite !cookie_accepted by (cbn [path clear_opts]; auto).
  unfold_run. rewrite Hp, Hname, Hprov. simpl.
  destruct (obj_keys (req_callback req)) as [|k ks]; [done |].
  destruct (callback env _ _ _) as [claims|e]; simpl; [| done].
  by rewrite Hp.
Qed.

(** With a [:uid] the cookie library rejects, the completion branch stops
    at the first clearing write. *)
Lemma post_federated_complete_rejected (env : Env) (req : Request)
    (s : State) (i : Interaction) :
  pending s = Some i →
  obj_get "name" (prompt i) = JStr "login" →
  obj_get "provider" (req_body req) = JStr "google" →
  obj_keys (req_callback req) ≠ [] →
  string_forall field_char (req_uid req) = false →
  post_federated env req s
  = (Thrown (TypeError "option path is invalid"), s,
     [ EvInteractionDetails; EvCallbackParams; EvCookieGet "google.state" ]).
Proof.
  intros Hp Hname Hprov Hcb Huid.
  rewrite <- federated_path_chars in Huid.
  unfold post_federated, federated_complete.
  rewrite !clearing_rejected by auto.
  unfold_run. rewrite Hp, Hname, Hprov. simpl.
  by destruct (obj_keys (req_callback req)) as [|k ks].
Qed.

Lemma post_federated_initiate_run (env : Env) (req : Request) (s : State)
    (i : Interaction) :
  pending s = Some i →
  obj_get "name" (prompt i) = JStr "login" →
  obj_get "provider" (req_body req) = JStr "google" →
  obj_keys (req_callback req) = [] →
  string_forall field_char (req_uid req) = true →
  post_federated env req s
  = (Returned tt,
     {| keys := keys s; drawn := (drawn s + 32 + 32)%nat;
        pending := pending s |},
     [ EvInteractionDetails; EvCallbackParams;
       EvRandomBytes 32; EvRandomBytes 32;
       EvCookieSet "google.state"
         (req_uid req +:+ "|" +:+ to_hex (draw env (drawn s) 32))
         (strict_opts (federated_path req));
       EvCookieSet "google.nonce"
         (to_hex (draw env (drawn s + 32) 32))
         (strict_opts (federated_path req));
       EvRedirect
         (authorizationUrl env
            (req_uid req +:+ "|" +:+ to_hex (draw env (drawn s) 32))
            (to_hex (draw env (drawn s + 32) 32))
            "openid email profile") ]).
Proof.
  intros Hp Hname Hprov Hcb Huid.
  assert (Hpath : string_forall field_char (federated_path req) = true)
    by (by rewrite federated_path_chars).
  destruct s as [K d p]. simpl in Hp. subst p.
  unfold post_federated, federated_initiate.
  unfold mbind, M_bind, bind, interactionDetails, assert_equal, emit,
    randomBytes. cbn [pending keys drawn fst snd].
  rewrite Hname, Hprov, Hcb. cbn [js_is]. rewrite !String.eqb_refl.
  cbn [mret M_ret ret fst snd app].
  rewrite !cookie_accepted
    by (cbn [path strict_opts]; auto using to_hex_field_chars;
        by rewrite state_value_chars).
  reflexivity.
Qed.

(** With a [:uid] the cookie library rejects, the initiation branch stops
    at the write of the state cookie, after both draws. *)
Lemma post_federated_initiate_rejected (env : Env) (req : Request)
    (s : State) (i : Interaction) :
  pending s = Some i →
  obj_get "name" (prompt i) = JStr "login" →
  obj_get "provider" (req_body req) = JStr "google" →
  obj_keys (req_callback req) = [] →
  string_forall field_char (req_uid req) = false →
  post_federated env req s
  = (Thrown (TypeError "argument value is invalid"),
     {| keys := keys s; drawn := (drawn s + 32 + 32)%nat;
        pending := pending s |},
     [ EvInteractionDetails; EvCallbackParams;
       EvRandomBytes 32; EvRandomBytes 32 ]).
Proof.
  intros Hp Hname Hprov Hcb Huid.
  destruct s as [K d p]. simpl in Hp. subst p.
  unfold post_federated, federated_initiate.
  unfold mbind, M_bind, bind, interactionDetails, assert_equal, emit,
    randomBytes. cbn [pending keys drawn fst snd].
  rewrite Hname, Hprov, Hcb. cbn [js_is]. rewrite !String.eqb_refl.
  cbn [mret M_ret ret fst snd app].
  rewrite state_rejected by (by rewrite state_value_chars).
  reflexivity.
Qed.

Lemma js_is_JStr (v : JsVal) (s : string) : js_is v s = true → v = JStr s.
Proof. destruct v; simpl; try done. by intros ->%String.eqb_eq. Qed.

Lemma post_federated_other_provider (env : Env) (req : Request) (s : State)
    (i : Interaction) :
  pending s = Some i →
  obj_get "name" (prompt i) = JStr "login" →
  js_is (obj_get "provider" (req_body req)) "google" = false →
  post_federated env req s
  = (Returned tt, s, [ EvInteractionDetails; EvCallbackParams ]).
Proof.
  intros Hp Hname Hprov. unfold_run. by rewrite Hp, Hname, Hprov.
Qed.

(** A token exchange or an account lookup appears in the trace of the
    federated route only on the completion branch, and only when the cookie
    library has accepted the two clearing writes. *)
Lemma federated_completion_reached (env : Env) (req : Request) (s : State)
    (i : Interaction) :
  pending s = Some i →
  obj_get "name" (prompt i) = JStr "login" →
  exchanges (events (post_federated env req s)) ≠ []
  ∨ (∃ p claims,
       EvFindByFederated p claims ∈ events (post_federated env req s)) →
  obj_get "provider" (req_body req) = JStr "google"
  ∧ obj_keys (req_callback req) ≠ []
  ∧ string_forall field_char (req_uid req) = true.
Proof.
  intros Hp Hname Hin.
  destruct (js_is (obj_get "provider" (req_body req)) "google") eqn:Hprov.
  2: { rewrite (post_federated_other_provider env req s i Hp Hname Hprov)
         in Hin.
       destruct Hin as [Hin | (p & c & Hin)]; [done |].
       unfold events in Hin. simpl in Hin. set_solver. }
  apply js_is_JStr in Hprov. split; [done |].
  destruct (string_forall field_char (req_uid req)) eqn:Huid;
    destruct (obj_keys (req_callback req)) as [|k ks] eqn:Hcb;
    try done; exfalso.
  - rewrite (post_federated_initiate_run env req s i Hp Hname Hprov Hcb Huid)
      in Hin.
    destruct Hin as [Hin | (p & c & Hin)]; [done |].
    unfold events in Hin. simpl in Hin. set_solver.
  - rewrite (post_federated_initiate_rejected env req s i Hp Hname Hprov Hcb
               Huid) in Hin.
    destruct Hin as [Hin | (p & c & Hin)]; [done |].
    unfold events in Hin. simpl in Hin. set_solver.
  - assert (Hne : obj_keys (req_callback req) ≠ []) by (by rewrite Hcb).
    rewrite (post_federated_complete_rejected env req s i Hp Hname Hprov Hne
               Huid) in Hin.
    destruct Hin as [Hin | (p & c & Hin)]; [done |].
    unfold events in Hin. simpl in Hin. set_solver.
Qed.

(** ** What a computation can emit *)

Section Emits.
Variable P : Event → Prop.

Lemma emits_ret {A : Type} (a : A) : emits_only P (mret a).
Proof. intros s. constructor. Qed.

Lemma emits_throw {A : Type} (e : JsError) : emits_only P (@throw A e).
Proof. intros s. constructor. Qed.

Lemma emits_emit (ev : Event) : P ev → emits_only P (emit ev).
Proof. intros Hev s. by repeat constructor. Qed.

Lemma emits_bind {A B : Type} (m : M A) (k : A → M B) :
  emits_only P m → (∀ a, emits_only P (k a)) → emits_only P (m ≫= k).
Proof.
  intros Hm Hk s. specialize (Hm s).
  unfold mbind, M_bind, bind, events in *.
  destruct (m s) as [[[a|e] s'] t]; simpl in *; [| done].
  apply Forall_app. split; [done |]. apply Hk.
Qed.

Lemma emits_try_catch {A : Type} (m : M A) (h : JsError → M A) :
  emits_only P m → (∀ e, emits_only P (h e)) →
  emits_only P (try_catch m h).
Proof.
  intros Hm Hh s. specialize (Hm s). unfold try_catch, events in *.
  destruct (m s) as [[[a|e] s'] t]; simpl in *; [done |].
  apply Forall_app. split; [done |]. apply Hh.
Qed.

Lemma emits_interactionDetails (env : Env) :
  P EvInteractionDetails → emits_only P (interactionDetails env).
Proof.
  intros Hev s. unfold interactionDetails, events.
  destruct (pending s); by repeat constructor.
Qed.

Lemma emits_interactionFinished (env : Env) (res : JsVal) (b : bool) :
  P (EvInteractionFinished res b) →
  emits_only P (interactionFinished env res b).
Proof.
  intros Hev s. unfold interactionFinished, events.
  destruct (pending s); by repeat constructor.
Qed.

Lemma emits_assert_equal (v : JsVal) (expected : string) :
  emits_only P (assert_equal v expected).
Proof.
  unfold assert_equal. destruct (js_is v expected);
    [apply emits_ret | apply emits_throw].
Qed.

Lemma emits_debugM (env : Env) (o : obj) : emits_only P (debugM env o).
Proof. intros s. constructor. Qed.

Lemma emits_save (i : Interaction) : P (EvSave i) → emits_only P (save i).
Proof. intros Hev s. by repeat constructor. Qed.

Lemma emits_randomBytes (env : Env) (n : nat) :
  P (EvRandomBytes n) → emits_only P (randomBytes env n).
Proof. intros Hev s. by repeat constructor. Qed.

Lemma emits_google_callback (env : Env) (cbp : obj) (st no : JsVal) :
  P (EvTokenExchange cbp st no) →
  emits_only P (google_callback env cbp st no).
Proof. intros Hev s. by repeat constructor. Qed.
End Emits.

(** Decomposes a handler into its calls; [tac] proves [P] of each event. *)
Ltac emits_with tac :=
  repeat first
    [ apply emits_ret
    | apply emits_throw
    | apply emits_assert_equal
    | apply emits_debugM
    | apply emits_interactionDetails; tac
    | apply emits_interactionFinished; tac
    | apply emits_save; tac
    | apply emits_randomBytes; tac
    | apply emits_google_callback; tac
    | apply emits_emit; tac
    | apply emits_bind; [| intros ?]
    | match goal with
      | |- emits_only _ (if ?b then _ else _) => destruct b
      | |- emits_only _ (match ?x with _ => _ end) => destruct x
      end ].

Lemma handler_merge_flag (env : Env) (req : Request) (next : M unit)
    (r : Route) :
  emits_only (merge_flag_is false) next →
  r ≠ PostConfirm →
  emits_only (merge_flag_is false) (handler env req next r).
Proof.
  intros Hnext Hr.
  destruct r; try done; simpl;
    unfold get_interaction, get_callback_google, post_login, post_federated,
      post_continue, get_abort, federated_complete, federated_initiate,
      switch_account, session_panel, dbg_panel, cookies_get, cookies_set;
    emits_with ltac:(exact I || reflexivity); try exact Hnext.
Qed.

Lemma post_confirm_resolves (env : Env) (req : Request) :
  emits_only (resolves_with consent_result true) (post_confirm env req).
Proof.
  unfold post_confirm. emits_with ltac:(exact I || (split; reflexivity)).
Qed.

Lemma post_continue_resolves (env : Env) (req : Request) :
  emits_only (resolves_with (JObj [ ("select_account", JObj []) ]) false)
             (post_continue env req).
Proof.
  unfold post_continue, switch_account.
  emits_with ltac:(exact I || (split; reflexivity)).
Qed.

Lemma use_no_cache_emits (P : Event → Prop) (body : M unit) :
  (∀ ev, (∀ res b, ev ≠ EvInteractionFinished res b) → P ev) →
  emits_only P body → emits_only P (use_no_cache body).
Proof.
  intros HP Hbody. unfold use_no_cache, renderError.
  apply emits_bind; [apply emits_emit; by apply HP | intros _].
  apply emits_bind; [apply emits_emit; by apply HP | intros _].
  apply emits_try_catch; [done |]. intros e.
  destruct e; try apply emits_throw.
  apply emits_bind; [apply emits_emit; by apply HP | intros _].
  apply emits_bind; [apply emits_emit; by apply HP | intros _].
  apply emits_emit. by apply HP.
Qed.


(* ===================================================================== *)
(** ** End-to-end scenarios of the specification *)
(* ===================================================================== *)

Example scenario_abort :
  events (router sample_env (sample_request [] [] []) (ret tt) GetAbort
            (sample_state "login" None))
  = [ EvSetHeader "Pragma" "no-cache";
      EvSetHeader "Cache-Control" "no-cache, no-store";
      EvInteractionFinished
        (JObj [ ("error", JStr "access_denied");
                ("error_description", JStr "End-User aborted interaction") ])
        false ].
Proof. reflexivity. Qed.

Example scenario_login :
  resolutions
    (events (router sample_env
               (sample_request [ ("login", JStr "alice") ] [] [])
               (ret tt) PostLogin (sample_state "login" None)))
  = [ (JObj [ ("select_account", JObj []);
              ("login", JObj [ ("account", JStr "u1") ]) ], false) ].
Proof. reflexivity. Qed.

Example scenario_federated_start :
  events (post_federated sample_env
            (sample_request [ ("provider", JStr "google") ] [] [])
            (sample_state "login" None))
  = [ EvInteractionDetails; EvCallbackParams;
      EvRandomBytes 32; EvRandomBytes 32;
      EvCookieSet "google.state"
        "abc|000102030405060708090a0b0c0d0e0f101112131415161718191a1b1c1d1e1f"
        (strict_opts "/interaction/abc/federated");
      EvCookieSet "google.nonce"
        "202122232425262728292a2b2c2d2e2f303132333435363738393a3b3c3d3e3f"
        (strict_opts "/interaction/abc/federated");
      EvRedirect
        ("https://idp.example/auth?state="
         +:+ "abc|000102030405060708090a0b0c0d0e0f101112131415161718191a1b1c1d1e1f"
         +:+ "&nonce="
         +:+ "202122232425262728292a2b2c2d2e2f303132333435363738393a3b3c3d3e3f"
         +:+ "&scope=openid email profile") ].
Proof. vm_compute. reflexivity. Qed.


(* ===================================================================== *)
(** ** The interaction router: claims C1 to C7 *)
(* ===================================================================== *)

(** C1.  When the pending prompt is [select_account] and the interaction
    carries no session, a [GET /interaction/:uid] request returns after
    exactly one resolution, with result [{select_account: {}}] and
    [mergeWithLastSubmission] false, and renders no view: the only calls
    made are the two header writes of the middleware, the interaction
    lookup, the client lookup and the resolution. *)
Theorem select_account_without_session (env : Env) (req : Request)
    (next : M unit) (s : State) (i : Interaction) :
  pending s = Some i →
  obj_get "name" (prompt i) = JStr "select_account" →
  session i = None →
  router env req next GetInteraction s
  = (Returned tt, s,
     [ EvSetHeader "Pragma" "no-cache";
       EvSetHeader "Cache-Control" "no-cache, no-store";
       EvInteractionDetails;
       EvClientFind (obj_get "client_id" (params i));
       EvInteractionFinished (JObj [ ("select_account", JObj []) ]) false ])
  ∧ resolutions (events (router env req next GetInteraction s))
    = [ (JObj [ ("select_account", JObj []) ], false) ]
  ∧ rendered (events (router env req next GetInteraction s)) = [].
Proof.
  intros Hp Hname Hsess.
  assert (Hrun : router env req next GetInteraction s
    = (Returned tt, s,
       [ EvSetHeader "Pragma" "no-cache";
         EvSetHeader "Cache-Control" "no-cache, no-store";
         EvInteractionDetails;
         EvClientFind (obj_get "client_id" (params i));
         EvInteractionFinished (JObj [ ("select_account", JObj []) ])
           false ])).
  { unfold_run. rewrite Hp, Hname, Hsess. simpl. by rewrite Hp. }
  rewrite Hrun. done.
Qed.

Lemma select_account_without_session_witness :
  let env := sample_env in
  let req := sample_request [] [] [] in
  let s := sample_state "select_account" None in
  let i := sample_interaction "select_account" None in
  pending s = Some i
  ∧ obj_get "name" (prompt i) = JStr "select_account"
  ∧ session i = None
  ∧ resolutions (events (router env req (ret tt) GetInteraction s))
    = [ (JObj [ ("select_account", JObj []) ], false) ]
  ∧ rendered (events (router env req (ret tt) GetInteraction s)) = [].
Proof.
  do 3 (split; [reflexivity |]).
  exact (proj2 (select_account_without_session sample_env
                  (sample_request [] [] []) (ret tt)
                  (sample_state "select_account" None)
                  (sample_interaction "select_account" None)
                  eq_refl eq_refl eq_refl)).
Defined.

(** C2.  With the pending prompt [login]: on the login route the handler
    returns after exactly one resolution, whose result is exactly
    [{select_account: {}, login: {account: accountId}}] when [findByLogin]
    yields an account and the empty object when it yields none.  On the
    federated route, whenever the trace holds the lookup
    [findByFederated("google", claims)] (the completion has reached it), the
    handler returns after exactly one resolution with the same two results
    for a found and a missing account.  [mergeWithLastSubmission] is false
    in every case.  The lookup is reached when the provider is [google],
    callback parameters are present, the cookie library accepts the [:uid]
    of the route and the token exchange returns claims. *)
Theorem login_and_federated_resolution (env : Env) (req : Request)
    (s : State) (i : Interaction) :
  pending s = Some i →
  obj_get "name" (prompt i) = JStr "login" →
  let found (a : Account) :=
    JObj [ ("select_account", JObj []);
           ("login", JObj [ ("account", JStr (accountId a)) ]) ] in
  let state := request_cookie req "google.state" in
  let nonce := request_cookie req "google.nonce" in
  (∀ a, findByLogin env (obj_get "login" (req_body req)) = Some a →
        outcome (post_login env req s) = Returned tt
        ∧ resolutions (events (post_login env req s)) = [ (found a, false) ])
  ∧ (findByLogin env (obj_get "login" (req_body req)) = None →
        outcome (post_login env req s) = Returned tt
        ∧ resolutions (events (post_login env req s)) = [ (JObj [], false) ])
  ∧ (∀ claims,
       EvFindByFederated "google" claims
       ∈ events (post_federated env req s) →
       (∀ a, findByFederated env "google" claims = Some a →
             outcome (post_federated env req s) = Returned tt
             ∧ resolutions (events (post_federated env req s))
               = [ (found a, false) ])
       ∧ (findByFederated env "google" claims = None →
             outcome (post_federated env req s) = Returned tt
             ∧ resolutions (events (post_federated env req s))
               = [ (JObj [], false) ]))
  ∧ (∀ claims,
       obj_get "provider" (req_body req) = JStr "google" →
       obj_keys (req_callback req) ≠ [] →
       string_forall field_char (req_uid req) = true →
       callback env (req_callback req) state nonce = Returned claims →
       EvFindByFederated "google" claims
       ∈ events (post_federated env req s)).
Proof.
  intros Hp Hname found state nonce.
  split; [| split; [| split]].
  - intros a Ha. rewrite (post_login_run env req s i Hp Hname), Ha. done.
  - intros Ha. rewrite (post_login_run env req s i Hp Hname), Ha. done.
  - intros claims Hin.
    destruct (federated_completion_reached env req s i Hp Hname)
      as (Hprov & Hcb & Huid); [right; eauto |].
    rewrite (post_federated_complete_run env req s i Hp Hname Hprov Hcb Huid)
      in Hin |- *.
    destruct (callback env _ _ _) as [claims'|e];
      unfold events, completion_prefix in Hin; simpl in Hin.
    + assert (claims' = claims) as -> by set_solver.
      split; [intros a Ha | intros Ha]; rewrite Ha; done.
    + set_solver.
  - intros claims Hprov Hcb Huid Hex.
    rewrite (post_federated_complete_run env req s i Hp Hname Hprov Hcb Huid).
    fold state nonce. rewrite Hex.
    unfold events, completion_prefix. simpl. set_solver.
Qed.

Lemma login_and_federated_resolution_witness :
  let alice := sample_request [ ("login", JStr "alice") ] [] [] in
  let bob := sample_request [ ("login", JStr "bob") ] [] [] in
  let back :=
    sample_request [ ("provider", JStr "google") ]
      [ ("google.state", "abc|00"); ("google.nonce", "11") ]
      [ ("state", JStr "abc|00"); ("id_token", JStr "jwt") ] in
  let s := sample_state "login" None in
  resolutions (events (post_login sample_env alice s))
  = [ (JObj [ ("select_account", JObj []);
              ("login", JObj [ ("account", JStr "u1") ]) ], false) ]
  ∧ resolutions (events (post_login sample_env bob s)) = [ (JObj [], false) ]
  ∧ EvFindByFederated "google" [ ("sub", JStr "g-1") ]
    ∈ events (post_federated sample_env back s)
  ∧ resolutions (events (post_federated sample_env back s))
    = [ (JObj [ ("select_account", JObj []);
                ("login", JObj [ ("account", JStr "u1") ]) ], false) ].
Proof.
  intros alice bob back s.
  pose proof (login_and_federated_resolution sample_env alice s
                (sample_interaction "login" None) eq_refl eq_refl) as Ha.
  pose proof (login_and_federated_resolution sample_env bob s
                (sample_interaction "login" None) eq_refl eq_refl) as Hb.
  pose proof (login_and_federated_resolution sample_env back s
                (sample_interaction "login" None) eq_refl eq_refl) as Hc.
  assert (Hin : EvFindByFederated "google" [ ("sub", JStr "g-1") ]
                ∈ events (post_federated sample_env back s)).
  { refine (proj2 (proj2 (proj2 Hc)) [ ("sub", JStr "g-1") ]
              eq_refl _ eq_refl eq_refl).
    discriminate. }
  split; [| split; [| split]].
  - exact (proj2 (proj1 Ha {| accountId := "u1" |} eq_refl)).
  - exact (proj2 (proj1 (proj2 Hb) eq_refl)).
  - exact Hin.
  - exact (proj2 (proj1 (proj1 (proj2 (proj2 Hc)) [ ("sub", JStr "g-1") ] Hin)
                     {| accountId := "u1" |} eq_refl)).
Defined.

(** C3.  On initiation of the federated handshake, when the cookie library
    accepts the [:uid] parameter of the route, the value written to the
    [google.state] cookie is that [:uid] parameter, then [|], then the
    hexadecimal form of the 32 random bytes drawn for it, which is 64
    characters long and made of hexadecimal digits only.  A second
    initiation right after the first writes the same shape with its own
    draw, and when the two draws differ the two cookie values differ.  When
    the cookie library rejects the [:uid], the handler throws a [TypeError]
    and no state cookie is written. *)
Theorem federated_state_cookie (env : Env) (req : Request) (s : State)
    (i : Interaction) :
  pending s = Some i →
  obj_get "name" (prompt i) = JStr "login" →
  obj_get "provider" (req_body req) = JStr "google" →
  obj_keys (req_callback req) = [] →
  let first := post_federated env req s in
  let second := post_federated env req (final first) in
  let draw1 := draw env (drawn s) 32 in
  let draw2 := draw env (drawn (final first)) 32 in
  (string_forall field_char (req_uid req) = true →
   cookie_written "google.state" (events first)
   = Some (req_uid req +:+ "|" +:+ to_hex draw1)
   ∧ cookie_written "google.state" (events second)
     = Some (req_uid req +:+ "|" +:+ to_hex draw2)
   ∧ String.length (to_hex draw1) = 64%nat
   ∧ string_forall is_hex_digit (to_hex draw1) = true
   ∧ String.length (to_hex draw2) = 64%nat
   ∧ string_forall is_hex_digit (to_hex draw2) = true
   ∧ (draw1 ≠ draw2 →
      cookie_written "google.state" (events first)
      ≠ cookie_written "google.state" (events second)))
  ∧ (string_forall field_char (req_uid req) = false →
     (∃ message, outcome first = Thrown (TypeError message))
     ∧ cookie_written "google.state" (events first) = None).
Proof.
  intros Hp Hname Hprov Hcb first second draw1 draw2.
  split; intros Huid.
  2: { unfold first.
       rewrite (post_federated_initiate_rejected env req s i Hp Hname Hprov
                  Hcb Huid).
       split; [by eexists | done]. }
  assert (Hfirst : cookie_written "google.state" (events first)
                   = Some (req_uid req +:+ "|" +:+ to_hex draw1)).
  { unfold first.
    by rewrite (post_federated_initiate_run env req s i Hp Hname Hprov Hcb
                  Huid). }
  assert (Hsecond : cookie_written "google.state" (events second)
                    = Some (req_uid req +:+ "|" +:+ to_hex draw2)).
  { pose proof (post_federated_initiate_run env req s i Hp Hname Hprov Hcb
                  Huid) as R1.
    pose proof (post_federated_initiate_run env req
                  {| keys := keys s; drawn := (drawn s + 32 + 32)%nat;
                     pending := pending s |} i Hp Hname Hprov Hcb Huid)
      as R2.
    unfold second, draw2, first. rewrite R1.
    unfold final. cbn [fst snd]. by rewrite R2. }
  rewrite Hfirst, Hsecond. clear Hfirst Hsecond. unfold draw1, draw2.
  split; [done |]. split; [done |].
  split; [by rewrite to_hex_length, draw_length |].
  split; [apply to_hex_digits |].
  split; [by rewrite to_hex_length, draw_length |].
  split; [apply to_hex_digits |].
  intros Hne [= Heq]. apply Hne.
  by apply to_hex_inj, (String.app_inj "|"), (String.app_inj (req_uid req)).
Qed.

Lemma federated_state_cookie_witness :
  let req := sample_request [ ("provider", JStr "google") ] [] [] in
  let s := sample_state "login" None in
  let first := post_federated sample_env req s in
  let second := post_federated sample_env req (final first) in
  draw sample_env (drawn s) 32 ≠ draw sample_env (drawn (final first)) 32
  ∧ cookie_written "google.state" (events first)
    = Some "abc|000102030405060708090a0b0c0d0e0f101112131415161718191a1b1c1d1e1f"
  ∧ cookie_written "google.state" (events second)
    = Some "abc|404142434445464748494a4b4c4d4e4f505152535455565758595a5b5c5d5e5f"
  ∧ cookie_written "google.state" (events first)
    ≠ cookie_written "google.state" (events second).
Proof.
  intros req s first second.
  assert (Hne : draw sample_env (drawn s) 32
                ≠ draw sample_env (drawn (final first)) 32).
  { vm_compute. discriminate. }
  pose proof (proj1 (federated_state_cookie sample_env req s
                       (sample_interaction "login" None)
                       eq_refl eq_refl eq_refl eq_refl) eq_refl) as H.
  split; [exact Hne |].
  split; [exact (proj1 H) |].
  split; [exact (proj1 (proj2 H)) |].
  exact (proj2 (proj2 (proj2 (proj2 (proj2 (proj2 H))))) Hne).
Defined.

(** The state cookie is not built from the uid of the pending interaction,
    and is not written at all for a [:uid] the cookie library rejects: with
    the pending interaction [abc], a request on the route of [evil] writes
    a state cookie that starts with [evil|]; a request whose [:uid] is a
    line feed throws a [TypeError] after both draws and writes no cookie. *)
Lemma federated_state_cookie_follows_route :
  let s := sample_state "login" None in
  let on_route (u : string) :=
    {| req_uid := u; req_body := [ ("provider", JStr "google") ];
       req_cookies := []; req_callback := [] |} in
  let line_feed := String "010"%char EmptyString in
  option_map uid (pending s) = Some "abc"
  ∧ cookie_written "google.state"
      (events (post_federated sample_env (on_route "evil") s))
    = Some "evil|000102030405060708090a0b0c0d0e0f101112131415161718191a1b1c1d1e1f"
  ∧ outcome (post_federated sample_env (on_route line_feed) s)
    = Thrown (TypeError "argument value is invalid")
  ∧ cookie_written "google.state"
      (events (post_federated sample_env (on_route line_feed) s))
    = None
  ∧ redirects (events (post_federated sample_env (on_route line_feed) s))
    = [].
Proof. vm_compute. repeat split. Qed.



(** C5.  On the continue route with the pending prompt [select_account]:
    when the body asks for a switch and [params.prompt] is a non-empty
    string, the prompt becomes that string with [ login] appended, which
    read as a space-separated list is the old list followed by [login];
    when the body asks for a switch and [params.prompt] is unset (absent or
    otherwise falsy), the prompt becomes [logout]; in both cases the
    changed record is saved, replacing the engine's, before the resolution;
    without a switch nothing is saved.  In all three cases the handler
    returns after one resolution with [{select_account: {}}] and
    [mergeWithLastSubmission] false; and from any state whatever, a
    resolution made by this handler has that result and that flag. *)
Theorem continue_switch_account (env : Env) (req : Request) (s : State)
    (i : Interaction) :
  pending s = Some i →
  obj_get "name" (prompt i) = JStr "select_account" →
  let resolve :=
    EvInteractionFinished (JObj [ ("select_account", JObj []) ]) false in
  let saved (i' : Interaction) :=
    (Returned tt,
     {| keys := keys s; drawn := drawn s; pending := Some i' |},
     [ EvInteractionDetails; EvSave i'; resolve ]) in
  (∀ p, truthy (obj_get "switch" (req_body req)) = true →
        obj_get "prompt" (params i) = JStr p → p ≠ "" →
        post_continue env req s = saved (set_prompt i (p +:+ " login"))
        ∧ split_on " " (p +:+ " login") = split_on " " p ++ [ "login" ])
  ∧ (truthy (obj_get "switch" (req_body req)) = true →
     truthy (obj_get "prompt" (params i)) = false →
     post_continue env req s = saved (set_prompt i "logout"))
  ∧ (truthy (obj_get "switch" (req_body req)) = false →
     post_continue env req s
     = (Returned tt, s, [ EvInteractionDetails; resolve ]))
  ∧ (∀ v, obj_get "prompt" (params (set_prompt i v)) = JStr v)
  ∧ (∀ s', Forall (resolves_with (JObj [ ("select_account", JObj []) ])
                                 false)
                  (events (post_continue env req s'))).
Proof.
  intros Hp Hname resolve saved.
  split; [| split; [| split; [| split]]]; [| | | | apply post_continue_resolves].
  - intros p Hsw Hprompt Hne. split; [| apply split_login_appended].
    unfold_run. rewrite Hp, Hname, Hsw, Hprompt.
    rewrite (truthy_string p Hne), join_split_login. reflexivity.
  - intros Hsw Hfalsy. unfold_run. rewrite Hp, Hname, Hsw, Hfalsy.
    reflexivity.
  - intros Hsw. unfold_run. rewrite Hp, Hname, Hsw. simpl. by rewrite Hp.
  - intros v. apply obj_get_set_eq.
Qed.

Lemma continue_switch_account_witness :
  let s := sample_state "select_account" (Some [ ("accountId", JStr "u1") ]) in
  let i := sample_interaction "select_account"
             (Some [ ("accountId", JStr "u1") ]) in
  let bare :=
    {| keys := ∅; drawn := 0;
       pending :=
         Some {| uid := "abc";
                 prompt := [ ("name", JStr "select_account") ];
                 params := [ ("client_id", JStr "app") ];
                 session := None |} |} in
  let switch := sample_request [ ("switch", JStr "true") ] [] [] in
  let stay := sample_request [] [] [] in
  (final (post_continue sample_env switch s)).(pending)
  = Some (set_prompt i "consent login")
  ∧ params (set_prompt i "consent login")
    = [ ("client_id", JStr "app"); ("prompt", JStr "consent login") ]
  ∧ (final (post_continue sample_env switch bare)).(pending)
    = Some {| uid := "abc";
              prompt := [ ("name", JStr "select_account") ];
              params := [ ("client_id", JStr "app");
                          ("prompt", JStr "logout") ];
              session := None |}
  ∧ post_continue sample_env stay s
    = (Returned tt, s,
       [ EvInteractionDetails;
         EvInteractionFinished (JObj [ ("select_account", JObj []) ])
           false ]).
Proof.
  intros s i bare switch stay.
  pose proof (continue_switch_account sample_env switch s i
                eq_refl eq_refl) as Hs.
  pose proof (continue_switch_account sample_env switch bare _
                eq_refl eq_refl) as Hb.
  pose proof (continue_switch_account sample_env stay s i
                eq_refl eq_refl) as Hn.
  split; [| split; [reflexivity | split]].
  - assert (Hne : "consent" ≠ "") by discriminate.
    exact (f_equal (λ r, pending (final r))
             (proj1 (proj1 Hs "consent" eq_refl eq_refl Hne))).
  - exact (f_equal (λ r, pending (final r))
             (proj1 (proj2 Hb) eq_refl eq_refl)).
  - exact (proj1 (proj2 (proj2 Hn)) eq_refl).
Defined.

(** C6.  Whatever the state, every resolution the confirm route makes
    carries the consent result with empty [rejectedScopes] and
    [rejectedClaims] and [replace] false, and [mergeWithLastSubmission]
    true; with the pending prompt [consent] it makes exactly one and
    returns.  On every other route, every resolution the router makes
    carries [mergeWithLastSubmission] false ([next], the middleware that
    follows the router, is assumed to make no merging resolution of its
    own). *)
Theorem confirm_is_the_only_merging_route (env : Env) (req : Request)
    (next : M unit) :
  emits_only (merge_flag_is false) next →
  consent_result
  = JObj [ ("consent",
            JObj [ ("rejectedScopes", JArr []);
                   ("rejectedClaims", JArr []);
                   ("replace", JBool false) ]) ]
  ∧ (∀ s i, pending s = Some i →
            obj_get "name" (prompt i) = JStr "consent" →
            router env req next PostConfirm s
            = (Returned tt, s,
               [ EvSetHeader "Pragma" "no-cache";
                 EvSetHeader "Cache-Control" "no-cache, no-store";
                 EvInteractionDetails;
                 EvInteractionFinished consent_result true ]))
  ∧ (∀ s, Forall (resolves_with consent_result true)
                 (events (router env req next PostConfirm s)))
  ∧ (∀ r s, r ≠ PostConfirm →
            Forall (merge_flag_is false)
                   (events (router env req next r s))).
Proof.
  intros Hnext. split; [reflexivity |]. split; [| split].
  - intros s i Hp Hname. unfold_run. rewrite Hp, Hname. simpl.
    by rewrite Hp.
  - intros s. apply use_no_cache_emits; [| apply post_confirm_resolves].
    intros ev Hev. destruct ev; try exact I. by destruct (Hev result
      mergeWithLastSubmission).
  - intros r s Hr. apply use_no_cache_emits;
      [| by apply handler_merge_flag].
    intros ev Hev. destruct ev; try exact I. by destruct (Hev result
      mergeWithLastSubmission).
Qed.

Lemma confirm_is_the_only_merging_route_witness :
  let req := sample_request [ ("login", JStr "alice") ] [] [] in
  emits_only (merge_flag_is false) (mret tt : M unit)
  ∧ resolutions (events (router sample_env req (mret tt) PostConfirm
                           (sample_state "consent" None)))
    = [ (consent_result, true) ]
  ∧ Forall (merge_flag_is false)
      (events (router sample_env req (mret tt) PostLogin
                 (sample_state "login" None)))
  ∧ Forall (merge_flag_is false)
      (events (router sample_env req (mret tt) GetAbort
                 (sample_state "login" None))).
Proof.
  intros req.
  assert (Hnext : emits_only (merge_flag_is false) (mret tt : M unit)).
  { intros s. constructor. }
  pose proof (confirm_is_the_only_merging_route sample_env req (mret tt)
                Hnext) as H.
  split; [exact Hnext |]. split; [| split].
  - exact (f_equal (λ r, resolutions (events r))
             (proj1 (proj2 H) (sample_state "consent" None)
                (sample_interaction "consent" None) eq_refl eq_refl)).
  - refine (proj2 (proj2 (proj2 H)) PostLogin _ _). discriminate.
  - refine (proj2 (proj2 (proj2 H)) GetAbort _ _). discriminate.
Defined.

(** C7.  Around any handler, the middleware first writes the two no-cache
    headers.  When the handler throws the engine's [SessionNotFound], the
    middleware catches it: it sets the response status to the error's
    status, sets the type to [html] and the body to the error page, whose
    two lines show the error's message under [error] and its description
    under [error_description], and returns normally.  Any other thrown
    error is thrown again as it is, and nothing is written after the
    handler's own events.  A handler that returns is left alone. *)
Theorem middleware_catches_session_not_found (body : M unit) (s : State) :
  let headers :=
    [ EvSetHeader "Pragma" "no-cache";
      EvSetHeader "Cache-Control" "no-cache, no-store" ] in
  (∀ status message description s' t,
     body s = (Thrown (SessionNotFound status message description), s', t) →
     use_no_cache body s
     = (Returned tt, s',
        headers ++ t
        ++ [ EvStatus status; EvType "html";
             EvBody (page_head
                     +:+ ("<pre><strong>error</strong>: " +:+ message
                          +:+ "</pre>")
                     +:+ ("<pre><strong>error_description</strong>: "
                          +:+ template_value description +:+ "</pre>")
                     +:+ page_tail) ]))
  ∧ (∀ e s' t,
       body s = (Thrown e, s', t) →
       (∀ status message description,
          e ≠ SessionNotFound status message description) →
       use_no_cache body s = (Thrown e, s', headers ++ t))
  ∧ (∀ s' t,
       body s = (Returned tt, s', t) →
       use_no_cache body s = (Returned tt, s', headers ++ t)).
Proof.
  intros headers. split; [| split].
  - intros status message description s' t Hbody.
    unfold_run. rewrite Hbody. unfold error_page, error_line, join.
    cbn [map String.concat fst snd]. by rewrite !append_assoc.
  - intros e s' t Hbody Hother. unfold_run. rewrite Hbody.
    destruct e; try (by rewrite app_nil_r).
    by destruct (Hother status message error_description).
  - intros s' t Hbody. unfold_run. by rewrite Hbody.
Qed.

Lemma middleware_catches_session_not_found_witness :
  let gone := {| keys := ∅; drawn := 0; pending := None |} in
  let req := sample_request [] [] [] in
  router sample_env req (mret tt) GetAbort gone
  = (Returned tt, gone,
     [ EvSetHeader "Pragma" "no-cache";
       EvSetHeader "Cache-Control" "no-cache, no-store";
       EvInteractionFinished
         (JObj [ ("error", JStr "access_denied");
                 ("error_description", JStr "End-User aborted interaction") ])
         false;
       EvStatus 400; EvType "html";
       EvBody (page_head
               +:+ "<pre><strong>error</strong>: invalid_request</pre>"
               +:+ "<pre><strong>error_description</strong>: "
               +:+ "interaction session not found</pre>"
               +:+ page_tail) ])
  ∧ outcome (router sample_env req (mret tt) PostLogin
               (sample_state "consent" None))
    = Thrown (AssertionError (JStr "consent") "login").
Proof.
  intros gone req. split.
  - rewrite (proj1 (middleware_catches_session_not_found
                      (handler sample_env req (mret tt) GetAbort) gone)
               400%Z "invalid_request"
               (Some "interaction session not found") gone
               [ EvInteractionFinished
                   (JObj [ ("error", JStr "access_denied");
                           ("error_description",
                            JStr "End-User aborted interaction") ])
                   false ] eq_refl).
    reflexivity.
  - assert (Hother : ∀ status message description,
              AssertionError (JStr "consent") "login"
              ≠ SessionNotFound status message description)
      by (intros; discriminate).
    exact (f_equal outcome
             (proj1 (proj2 (middleware_catches_session_not_found
                              (handler sample_env req (mret tt) PostLogin)
                              (sample_state "consent" None)))
                _ _ _ eq_refl Hother)).
Defined.

(* ===================================================================== *)
(** ** The debug serializer: claims C8, C9 and C10 *)
(* ===================================================================== *)

(** C8, as the code has it.  For every record (entries with distinct keys)
    and every content of the module-level key set before the call, the
    output is one [key: value] pair per entry whose value is not empty and
    whose key is not [__proto__] (the assignment to that key creates no
    property, so the pair is never printed), in entry order, separated by
    [<br/>], with the value rendered by [inspect]; every printed key name
    is wrapped in [<strong>], whether or not it occurs anywhere else; an
    inspected value is wrapped exactly when it is a string of the key set,
    which holds the keys of this record together with every key recorded by
    earlier calls; and the call leaves that enlarged set behind for the
    next call. *)
Theorem debug_serializer_output (ins : JsVal → string) (entries : obj)
    (K : gset string) :
  NoDup (obj_keys entries) →
  debug ins entries K
  = (join "<br/>"
       (map (λ kv, "<strong>" +:+ kv.1 +:+ "</strong>: "
                   +:+ emphasise (K ∪ list_to_set (obj_keys entries)) kv.2)
            (printed_pairs ins entries)),
     K ∪ list_to_set (obj_keys entries)).
Proof.
  intros Hnd.
  rewrite <- (debug_output ins entries K Hnd), <- (debug_keys ins entries K).
  by destruct (debug ins entries K).
Qed.

Lemma debug_serializer_output_witness :
  NoDup (obj_keys [ ("x", JStr "a"); ("e", JStr ""); ("n", JNum 7) ])
  ∧ debug inspect_line [ ("x", JStr "a"); ("e", JStr ""); ("n", JNum 7) ] ∅
    = (join "<br/>"
         (map (λ kv, "<strong>" +:+ kv.1 +:+ "</strong>: "
                     +:+ emphasise
                           (∅ ∪ list_to_set
                                  (obj_keys [ ("x", JStr "a"); ("e", JStr "");
                                              ("n", JNum 7) ])) kv.2)
              (printed_pairs inspect_line
                 [ ("x", JStr "a"); ("e", JStr ""); ("n", JNum 7) ])),
       ∅ ∪ list_to_set
             (obj_keys [ ("x", JStr "a"); ("e", JStr ""); ("n", JNum 7) ])).
Proof.
  assert (Hnd : NoDup (obj_keys [ ("x", JStr "a"); ("e", JStr "");
                                  ("n", JNum 7) ])).
  { apply (bool_decide_unpack _). vm_compute. exact I. }
  split; [exact Hnd |].
  exact (debug_serializer_output inspect_line _ ∅ Hnd).
Defined.

(** C8 as stated fails: the emphasis is not scoped to one render.  The
    record [{x: "a"}] renders with its value plain on a fresh key set and
    with its value emphasised once an earlier call has serialized a record
    with the key ['a'] (whose empty value printed nothing); and its only
    key [x] is emphasised although it occurs nowhere else. *)
Lemma debug_emphasis_not_scoped_to_render :
  (debug inspect_line [ ("x", JStr "a") ] ∅).1 = "<strong>x</strong>: 'a'"
  ∧ (debug inspect_line [ ("'a'", JStr "") ] ∅).1 = ""
  ∧ (debug inspect_line [ ("x", JStr "a") ]
       (debug inspect_line [ ("'a'", JStr "") ] ∅).2).1
    = "<strong>x</strong>: <strong>'a'</strong>"
  ∧ (debug inspect_line [ ("x", JStr "a") ] ∅).1
    ≠ (debug inspect_line [ ("x", JStr "a") ]
         (debug inspect_line [ ("'a'", JStr "") ] ∅).2).1.
Proof.
  repeat split; try (vm_compute; reflexivity).
  vm_compute. discriminate.
Qed.

(** A pair under the key [__proto__] is never printed, yet the key is
    recorded. *)
Example debug_drops_proto_pair :
  (debug inspect_line [ ("__proto__", JStr "a"); ("x", JStr "b") ] ∅).1
  = "<strong>x</strong>: 'b'"
  ∧ (debug inspect_line [ ("__proto__", JStr "a"); ("x", JStr "b") ] ∅).2
    = ∅ ∪ list_to_set [ "__proto__"; "x" ].
Proof. split; [vm_compute; reflexivity | apply debug_keys]. Qed.

(** C9, as the code has it.  For every record (entries with distinct
    keys) whose printed keys and inspected values hold none of [<], [>] and
    [&], the output is safe to embed: every tag in it is one of the
    serializer's own [<strong>], [</strong>] and [<br/>], no tag is left
    open and it holds no [&].  The printed pairs are those of the entries
    whose value is not empty and whose key is not [__proto__]. *)
Theorem debug_html_safe_on_plain_text (ins : JsVal → string)
    (entries : obj) (K : gset string) :
  NoDup (obj_keys entries) →
  Forall (λ kv, markup_free kv.1 = true ∧ markup_free kv.2 = true)
         (printed_pairs ins entries) →
  html_safe (debug ins entries K).1 = true.
Proof.
  intros Hnd Hplain. rewrite debug_output by done.
  apply html_safe_join; [done |].
  apply Forall_map. eapply Forall_impl; [exact Hplain |].
  intros [k v] [Hk Hv]. simpl in *.
  apply html_safe_append; [done |].
  apply html_safe_append; [by apply html_safe_markup_free |].
  apply html_safe_append; [done |].
  by apply html_safe_emphasise.
Qed.

Lemma debug_html_safe_on_plain_text_witness :
  NoDup (obj_keys [ ("scope", JStr "openid"); ("nonce", JNull) ])
  ∧ Forall (λ kv, markup_free kv.1 = true ∧ markup_free kv.2 = true)
      (printed_pairs inspect_line
         [ ("scope", JStr "openid"); ("nonce", JNull) ])
  ∧ html_safe
      (debug inspect_line [ ("scope", JStr "openid"); ("nonce", JNull) ]
         ∅).1 = true.
Proof.
  assert (Hnd : NoDup (obj_keys [ ("scope", JStr "openid");
                                  ("nonce", JNull) ])).
  { apply (bool_decide_unpack _). vm_compute. exact I. }
  assert (Hplain :
    Forall (λ kv, markup_free kv.1 = true ∧ markup_free kv.2 = true)
      (printed_pairs inspect_line
         [ ("scope", JStr "openid"); ("nonce", JNull) ])).
  { repeat constructor. }
  split; [exact Hnd |]. split; [exact Hplain |].
  exact (debug_html_safe_on_plain_text inspect_line _ ∅ Hnd Hplain).
Defined.

(** C9 as stated fails: a key holding markup is copied into the output as
    it is, and the output then carries a tag that is not the serializer's. *)
Lemma debug_copies_markup :
  (debug inspect_line [ ("<script>", JStr "x") ] ∅).1
  = "<strong><script></strong>: 'x'"
  ∧ (scan_tags None (debug inspect_line [ ("<script>", JStr "x") ] ∅).1).1
    = [ "strong"; "script"; "/strong" ]
  ∧ html_safe (debug inspect_line [ ("<script>", JStr "x") ] ∅).1 = false.
Proof. repeat split; vm_compute; reflexivity. Qed.

Lemma emphasise_wrapped_ne (v : string) :
  v ≠ "<strong>" +:+ v +:+ "</strong>".
Proof.
  intros Heq. apply (f_equal String.length) in Heq.
  rewrite !length_append in Heq. simpl in Heq. lia.
Qed.

(** C10.  Whatever [inspect] is, the serializer's output is not a function
    of its argument alone: every call adds all keys of its record to the
    module-level set, also the keys whose empty value is left out of the
    output; the encoder wraps any string, key or value, found in that set;
    and there are records [r1] and [r2], [r1] printing nothing, such that
    [r2] is rendered differently when [r1] was serialized before it. *)
Theorem debug_output_depends_on_earlier_calls (ins : JsVal → string) :
  (∀ (entries : obj) (K : gset string),
     (debug ins entries K).2 = K ∪ list_to_set (obj_keys entries))
  ∧ (∀ (K : gset string) (v : string),
       emphasise K v
       = if bool_decide (v ∈ K) then "<strong>" +:+ v +:+ "</strong>"
         else v)
  ∧ ∃ r1 r2 : obj,
      (debug ins r1 ∅).1 = ""
      ∧ (debug ins r2 ∅).1 ≠ (debug ins r2 (debug ins r1 ∅).2).1.
Proof.
  split; [apply debug_keys |].
  split.
  { intros K v. unfold emphasise.
    case_bool_decide; [by rewrite decide_True | by rewrite decide_False]. }
  set (s := ins (JStr "a")).
  set (k := if decide (s = "x") then "y" else "x").
  assert (Hks : k ≠ s).
  { unfold k. destruct (decide (s = "x")) as [->|Hne]; [done | congruence]. }
  exists [ (s, JNull) ], [ (k, JStr "a") ].
  split; [done |].
  assert (Hnd : NoDup (obj_keys [ (k, JStr "a") ])).
  { apply NoDup_singleton. }
  assert (Hkp : k ≠ "__proto__").
  { unfold k. by destruct (decide (s = "x")). }
  rewrite !(debug_output ins _ _ Hnd), debug_keys.
  unfold printed_pairs. rewrite filter_cons_True by done.
  rewrite filter_nil. simpl. fold s.
  unfold emphasise.
  rewrite decide_False by set_solver.
  rewrite decide_True by set_solver.
  intros Heq. do 3 apply String.app_inj in Heq.
  by apply emphasise_wrapped_ne in Heq.
Qed.

(* ===================================================================== *)
(** * Further properties of the code *)
(* ===================================================================== *)

(** ** The HTTPS filter *)

Lemma strip_prefix_ci_split (p s rest : string) :
  strip_prefix_ci p s = Some rest →
  ∃ pre, s = pre +:+ rest ∧ String.length pre = String.length p.
Proof.
  revert s. induction p as [|a p IH]; intros s H.
  - exists "". simpl in H. by injection H as ->.
  - destruct s as [|b s]; [done |]. cbn [strip_prefix_ci] in H.
    destruct (Ascii.eqb (lower a) (lower b)); [| done].
    destruct (IH s H) as [pre [-> Hlen]].
    exists (String b pre). split; [done |]. simpl. by rewrite Hlen.
Qed.

Lemma strip_http_of_https (rest : string) :
  strip_prefix_ci "http://" ("https://" +:+ rest) = None.
Proof. reflexivity. Qed.

Lemma to_https_match (url rest : string) :
  strip_prefix_ci "http://" url = Some rest →
  to_https url = "https://" +:+ rest.
Proof. intros H. unfold to_https. by rewrite H. Qed.

Lemma to_https_nomatch (url : string) :
  strip_prefix_ci "http://" url = None → to_https url = url.
Proof. intros H. unfold to_https. by rewrite H. Qed.

Lemma to_https_not_http (url : string) :
  strip_prefix_ci "http://" (to_https url) = None.
Proof.
  destruct (strip_prefix_ci "http://" url) as [rest|] eqn:Hm.
  - rewrite (to_https_match url rest Hm). apply strip_http_of_https.
  - by rewrite (to_https_nomatch url Hm).
Qed.

(** X1.  The rewritten URL never starts with [http://] in any letter
    case, rewriting twice is rewriting once, and when the URL did start
    with [http://] everything after those seven characters is kept as it
    was, so the result is one character longer. *)
Theorem to_https_replaces_scheme_only (url : string) :
  strip_prefix_ci "http://" (to_https url) = None
  ∧ to_https (to_https url) = to_https url
  ∧ match strip_prefix_ci "http://" url with
    | Some rest =>
        to_https url = "https://" +:+ rest
        ∧ (∃ scheme, url = scheme +:+ rest ∧ String.length scheme = 7%nat)
        ∧ String.length (to_https url) = S (String.length url)
    | None => to_https url = url
    end.
Proof.
  destruct (strip_prefix_ci "http://" url) as [rest|] eqn:Hm.
  - rewrite !(to_https_match url rest Hm).
    split; [apply strip_http_of_https |].
    split; [apply to_https_nomatch, strip_http_of_https |].
    split; [done |].
    destruct (strip_prefix_ci_split _ _ _ Hm) as [pre [-> Hlen]].
    split; [by exists pre |].
    rewrite !length_append, Hlen. reflexivity.
  - rewrite !(to_https_nomatch url Hm). by rewrite Hm.
Qed.

(** X2.  A request that is not secure is never passed on to the rest of
    the application: with method [GET] or [HEAD] it is redirected, to a URL
    that does not start with [http://]; with any other method it is
    answered with status 400. *)
Theorem https_only_blocks_insecure (ctx : Ctx) :
  secure ctx = false →
  match https_only ctx with
  | Next => False
  | Redirect url =>
      (method ctx = "GET" ∨ method ctx = "HEAD")
      ∧ url = to_https (href ctx)
      ∧ strip_prefix_ci "http://" url = None
  | Json status body =>
      method ctx ≠ "GET" ∧ method ctx ≠ "HEAD" ∧ status = 400%Z
      ∧ obj_get "error" body = JStr "invalid_request"
  end.
Proof.
  intros Hs. unfold https_only. rewrite Hs.
  destruct (String.eqb_spec (method ctx) "GET") as [->|Hg]; simpl.
  - split; [by left |]. split; [done |].
    apply to_https_not_http.
  - destruct (String.eqb_spec (method ctx) "HEAD") as [->|Hh]; simpl.
    + split; [by right |]. split; [done |].
      apply to_https_not_http.
    + done.
Qed.

Lemma https_only_blocks_insecure_witness :
  let get := {| secure := false; method := "GET";
                href := "HTTP://op.example/auth?x=1" |} in
  let post := {| secure := false; method := "POST";
                 href := "http://op.example/token" |} in
  https_only get = Redirect "https://op.example/auth?x=1"
  ∧ strip_prefix_ci "http://" "https://op.example/auth?x=1" = None
  ∧ https_only post
    = Json 400
        [ ("error", JStr "invalid_request");
          ("error_description",
           JStr "do yourself a favor and only use https") ]
  ∧ method post ≠ "GET".
Proof.
  intros get post.
  pose proof (https_only_blocks_insecure get eq_refl) as Hg.
  pose proof (https_only_blocks_insecure post eq_refl) as Hp.
  split; [reflexivity |].
  split; [exact (proj2 (proj2 Hg)) |].
  split; [reflexivity |].
  exact (proj1 Hp).
Defined.

(** ** The debug serializer *)

Lemma debug_fold_all_empty (ins : JsVal → string) (entries : obj)
    (K : gset string) (acc : list (string * string)) :
  Forall (λ kv, isEmpty kv.2 = true) entries →
  (fold_left (debug_step ins) entries (K, acc)).2 = acc.
Proof.
  revert K acc. induction entries as [|[k v] entries IH];
    intros K acc Hall; [done |].
  apply Forall_cons in Hall as [Hv Hall]. simpl in Hv.
  cbn [fold_left]. unfold debug_step at 2. cbn [fst snd]. rewrite Hv.
  by apply IH.
Qed.

(** X3.  A record whose values are all empty (an empty record among
    them) prints the empty string, yet every one of its keys is added to
    the module-level key set. *)
Theorem debug_all_empty_prints_nothing (ins : JsVal → string)
    (entries : obj) (K : gset string) :
  Forall (λ kv, isEmpty kv.2 = true) entries →
  debug ins entries K = ("", K ∪ list_to_set (obj_keys entries)).
Proof.
  intros Hall.
  rewrite <- (debug_keys ins entries K).
  unfold debug. cbn [fst snd].
  by rewrite (debug_fold_all_empty ins entries K [] Hall).
Qed.

Lemma debug_all_empty_prints_nothing_witness :
  Forall (λ kv, isEmpty kv.2 = true)
    [ ("nonce", JUndefined); ("max_age", JNum 300); ("ui_locales", JStr "") ]
  ∧ debug inspect_line
      [ ("nonce", JUndefined); ("max_age", JNum 300); ("ui_locales", JStr "") ]
      ∅
    = ("", ∅ ∪ list_to_set [ "nonce"; "max_age"; "ui_locales" ]).
Proof.
  assert (Hall : Forall (λ kv, isEmpty kv.2 = true)
            [ ("nonce", JUndefined); ("max_age", JNum 300);
              ("ui_locales", JStr "") ]).
  { repeat constructor. }
  split; [exact Hall |].
  exact (debug_all_empty_prints_nothing inspect_line _ ∅ Hall).
Defined.

(** X4.  Serializing the same record again right after a first call gives
    the same output as that first call and leaves the key set as the first
    call left it. *)
Theorem debug_repeat_is_stable (ins : JsVal → string) (entries : obj)
    (K : gset string) :
  NoDup (obj_keys entries) →
  debug ins entries (debug ins entries K).2 = debug ins entries K.
Proof.
  intros Hnd.
  assert (Hset : K ∪ list_to_set (obj_keys entries)
                   ∪ list_to_set (obj_keys entries)
                 = K ∪ list_to_set (obj_keys entries)) by set_solver.
  apply injective_projections.
  - rewrite !debug_output by done. rewrite debug_keys. by rewrite Hset.
  - rewrite !debug_keys. by rewrite Hset.
Qed.

Lemma debug_repeat_is_stable_witness :
  NoDup (obj_keys [ ("scope", JStr "openid"); ("state", JStr "scope") ])
  ∧ debug inspect_line [ ("scope", JStr "openid"); ("state", JStr "scope") ]
      (debug inspect_line
         [ ("scope", JStr "openid"); ("state", JStr "scope") ] ∅).2
    = debug inspect_line
        [ ("scope", JStr "openid"); ("state", JStr "scope") ] ∅.
Proof.
  assert (Hnd : NoDup (obj_keys [ ("scope", JStr "openid");
                                  ("state", JStr "scope") ])).
  { apply (bool_decide_unpack _). vm_compute. exact I. }
  split; [exact Hnd |].
  exact (debug_repeat_is_stable inspect_line _ ∅ Hnd).
Defined.

(** X5.  The key set only grows, and what two calls leave behind does not
    depend on the order of the two calls. *)
Theorem debug_key_set_grows_in_any_order (ins : JsVal → string)
    (a b : obj) (K : gset string) :
  K ⊆ (debug ins a K).2
  ∧ (debug ins b (debug ins a K).2).2 = (debug ins a (debug ins b K).2).2.
Proof. rewrite !debug_keys. split; set_solver. Qed.

(** X6.  When no inspected value of the printed pairs (the entries whose
    value is not empty and whose key is not [__proto__]) is a string of the
    key set, the set as it is after the record's own keys are added, the
    output is the plain list of those pairs with only the key names
    emphasised. *)
Theorem debug_plain_when_values_unrecorded (ins : JsVal → string)
    (entries : obj) (K : gset string) :
  NoDup (obj_keys entries) →
  Forall (λ kv, kv.2 ∉ K ∪ list_to_set (obj_keys entries))
         (printed_pairs ins entries) →
  (debug ins entries K).1
  = join "<br/>"
      (map (λ kv, "<strong>" +:+ kv.1 +:+ "</strong>: " +:+ kv.2)
           (printed_pairs ins entries)).
Proof.
  intros Hnd Hfree. rewrite debug_output by done. f_equal.
  apply map_ext_in. intros kv Hin%list_elem_of_In.
  rewrite Forall_forall in Hfree. specialize (Hfree kv Hin).
  unfold emphasise. by rewrite decide_False.
Qed.

Lemma debug_plain_when_values_unrecorded_witness :
  let entries := [ ("scope", JStr "openid"); ("state", JStr "af0ifjsldkj") ] in
  let K : gset string := {[ "client_id" ]} in
  NoDup (obj_keys entries)
  ∧ Forall (λ kv, kv.2 ∉ K ∪ list_to_set (obj_keys entries))
      (printed_pairs inspect_line entries)
  ∧ (debug inspect_line entries K).1
    = "<strong>scope</strong>: 'openid'<br/><strong>state</strong>: 'af0ifjsldkj'".
Proof.
  intros entries K.
  assert (Hnd : NoDup (obj_keys entries)).
  { apply (bool_decide_unpack _). vm_compute. exact I. }
  assert (Hfree : Forall (λ kv, kv.2 ∉ K ∪ list_to_set (obj_keys entries))
                    (printed_pairs inspect_line entries)).
  { apply (bool_decide_unpack _). vm_compute. exact I. }
  split; [exact Hnd |]. split; [exact Hfree |].
  exact (debug_plain_when_values_unrecorded inspect_line entries K Hnd Hfree).
Defined.

(** ** The router when the engine or the request is not as expected *)

Lemma resolutions_app (t u : list Event) :
  resolutions (t ++ u) = resolutions t ++ resolutions u.
Proof.
  induction t as [|ev t IH]; [done |].
  destruct ev; simpl; by rewrite ?IH.
Qed.

Lemma rendered_app (t u : list Event) :
  rendered (t ++ u) = rendered t ++ rendered u.
Proof.
  induction t as [|ev t IH]; [done |].
  destruct ev; simpl; by rewrite ?IH.
Qed.

(** X7.  When the engine has no pending interaction, every route that
    calls the engine ends in the error page: the request returns normally
    with the engine's status, nothing is rendered through a view, no
    account is looked up, no cookie is written and the state is unchanged.
    The one call made on the engine is the interaction lookup, except on
    the abort route, which calls the resolution directly. *)
Theorem router_without_pending_interaction (env : Env) (req : Request)
    (next : M unit) (r : Route) (s : State) :
  pending s = None →
  r ≠ GetCallbackGoogle →
  router env req next r s
  = (Returned tt, s,
     [ EvSetHeader "Pragma" "no-cache";
       EvSetHeader "Cache-Control" "no-cache, no-store";
       match r with
       | GetAbort =>
           EvInteractionFinished
             (JObj [ ("error", JStr "access_denied");
                     ("error_description",
                      JStr "End-User aborted interaction") ]) false
       | _ => EvInteractionDetails
       end;
       EvStatus (not_found env).1.1;
       EvType "html";
       EvBody (error_page [ ("error", Some (not_found env).1.2);
                            ("error_description", (not_found env).2) ]) ]).
Proof.
  intros Hp Hr. destruct r; try done; unfold_run; by rewrite Hp.
Qed.

Lemma router_without_pending_interaction_witness :
  let gone := {| keys := ∅; drawn := 0; pending := None |} in
  let req := sample_request [ ("login", JStr "alice") ] [] [] in
  pending gone = None
  ∧ outcome (router sample_env req (mret tt) PostLogin gone) = Returned tt
  ∧ events (router sample_env req (mret tt) PostLogin gone)
    = [ EvSetHeader "Pragma" "no-cache";
        EvSetHeader "Cache-Control" "no-cache, no-store";
        EvInteractionDetails;
        EvStatus 400; EvType "html";
        EvBody (error_page
                  [ ("error", Some "invalid_request");
                    ("error_description",
                     Some "interaction session not found") ]) ].
Proof.
  intros gone req.
  assert (Hr : PostLogin ≠ GetCallbackGoogle) by discriminate.
  pose proof (router_without_pending_interaction sample_env req (mret tt)
                PostLogin gone eq_refl Hr) as H.
  split; [reflexivity |].
  split; [exact (f_equal outcome H) | exact (f_equal events H)].
Defined.

(** X8.  On the four submission routes, a pending prompt other than the
    one the route asserts makes the request throw the assertion error,
    which the middleware lets through: after the interaction lookup
    nothing else happens, so no account is looked up, no cookie is read or
    written, nothing is saved or resolved, and the state is unchanged. *)
Theorem prompt_mismatch_is_assertion_failure (env : Env) (req : Request)
    (next : M unit) (r : Route) (s : State) (i : Interaction)
    (expected : string) :
  pending s = Some i →
  asserted_prompt r = Some expected →
  js_is (obj_get "name" (prompt i)) expected = false →
  router env req next r s
  = (Thrown (AssertionError (obj_get "name" (prompt i)) expected), s,
     [ EvSetHeader "Pragma" "no-cache";
       EvSetHeader "Cache-Control" "no-cache, no-store";
       EvInteractionDetails ]).
Proof.
  intros Hp Hr Hname.
  destruct r; simpl in Hr; try done; injection Hr as <-;
    unfold_run; by rewrite Hp, Hname.
Qed.

Lemma prompt_mismatch_is_assertion_failure_witness :
  let req := sample_request [ ("login", JStr "alice") ] [] [] in
  let s := sample_state "consent" None in
  router sample_env req (mret tt) PostLogin s
  = (Thrown (AssertionError (JStr "consent") "login"), s,
     [ EvSetHeader "Pragma" "no-cache";
       EvSetHeader "Cache-Control" "no-cache, no-store";
       EvInteractionDetails ]).
Proof.
  intros req s.
  exact (prompt_mismatch_is_assertion_failure sample_env req (mret tt)
           PostLogin s (sample_interaction "consent" None) "login"
           eq_refl eq_refl eq_refl).
Defined.

(** X9.  On the federated route with the pending prompt [login], a
    provider other than [google] (or none) is a no-op: the handler returns
    after the interaction lookup and the reading of the callback
    parameters, with no cookie, no random draw, no token exchange, no
    redirect and no resolution, and the state is unchanged. *)
Theorem federated_unknown_provider_is_noop (env : Env) (req : Request)
    (s : State) (i : Interaction) :
  pending s = Some i →
  obj_get "name" (prompt i) = JStr "login" →
  js_is (obj_get "provider" (req_body req)) "google" = false →
  post_federated env req s
  = (Returned tt, s, [ EvInteractionDetails; EvCallbackParams ]).
Proof.
  intros Hp Hname Hprov. unfold_run. by rewrite Hp, Hname, Hprov.
Qed.

Lemma federated_unknown_provider_is_noop_witness :
  let req := sample_request [ ("provider", JStr "github") ] []
               [ ("code", JStr "xyz") ] in
  let s := sample_state "login" None in
  post_federated sample_env req s
  = (Returned tt, s, [ EvInteractionDetails; EvCallbackParams ]).
Proof.
  intros req s.
  exact (federated_unknown_provider_is_noop sample_env req s
           (sample_interaction "login" None) eq_refl eq_refl eq_refl).
Defined.

(** ** The views of [GET /interaction/:uid] *)

(** X10.  With the pending prompt [login] or [consent] the request renders
    exactly one view, [login] or [interaction], and resolves nothing.  The
    view gets the interaction's uid, parameters and prompt details and the
    client found for [params.client_id]; its debug panels are serialized in
    the order session, parameters, prompt, each on the key set the previous
    one left, and the request leaves all their keys in the module-level
    set. *)
Theorem get_interaction_renders_prompt (env : Env) (req : Request)
    (next : M unit) (s : State) (i : Interaction) :
  pending s = Some i →
  obj_get "name" (prompt i) = JStr "login"
  ∨ obj_get "name" (prompt i) = JStr "consent" →
  let view :=
    if js_is (obj_get "name" (prompt i)) "login" then "login"
    else "interaction" in
  let K1 :=
    match session i with
    | Some se => keys s ∪ list_to_set (obj_keys se)
    | None => keys s
    end in
  let K2 := K1 ∪ list_to_set (obj_keys (params i)) in
  let K3 := K2 ∪ list_to_set (obj_keys (prompt i)) in
  ∃ locals,
    router env req next GetInteraction s
    = (Returned tt,
       {| keys := K3; drawn := drawn s; pending := pending s |},
       [ EvSetHeader "Pragma" "no-cache";
         EvSetHeader "Cache-Control" "no-cache, no-store";
         EvInteractionDetails;
         EvClientFind (obj_get "client_id" (params i));
         EvRender view locals ])
    ∧ obj_get "client" locals
      = Client_find env (obj_get "client_id" (params i))
    ∧ obj_get "uid" locals = JStr (uid i)
    ∧ obj_get "details" locals = obj_get "details" (prompt i)
    ∧ obj_get "params" locals = JObj (params i)
    ∧ obj_get "session" locals
      = match session i with
        | Some se => JStr (debug (inspect env) se (keys s)).1
        | None => JUndefined
        end
    ∧ obj_get "dbg" locals
      = JObj [ ("params", JStr (debug (inspect env) (params i) K1).1);
               ("prompt", JStr (debug (inspect env) (prompt i) K2).1) ].
Proof.
  intros Hp Hname view K1 K2 K3. unfold view, K3, K2, K1.
  destruct s as [K d p]. cbn [keys drawn pending] in *. subst p.
  destruct Hname as [Hn|Hn]; destruct (session i) as [se|] eqn:Hs;
    (eexists; split;
     [ rewrite <- (debug_keys (inspect env) (prompt i)),
         <- (debug_keys (inspect env) (params i)),
         <- ?(debug_keys (inspect env) se);
       unfold_run; cbn [keys drawn pending]; rewrite Hn, Hs; reflexivity
     | repeat split; rewrite <- ?(debug_keys (inspect env)); reflexivity ]).
Qed.

Lemma get_interaction_renders_prompt_witness :
  let s := sample_state "consent" (Some [ ("accountId", JStr "u1") ]) in
  rendered (events (router sample_env (sample_request [] [] []) (mret tt)
                      GetInteraction s)) = [ "interaction" ]
  ∧ resolutions (events (router sample_env (sample_request [] [] [])
                           (mret tt) GetInteraction s)) = []
  ∧ keys (final (router sample_env (sample_request [] [] []) (mret tt)
                   GetInteraction s))
    = ∅ ∪ list_to_set [ "accountId" ]
        ∪ list_to_set [ "client_id"; "prompt" ]
        ∪ list_to_set [ "name"; "details" ].
Proof.
  intros s.
  destruct (get_interaction_renders_prompt sample_env
              (sample_request [] [] []) (mret tt) s
              (sample_interaction "consent"
                 (Some [ ("accountId", JStr "u1") ]))
              eq_refl (or_intror eq_refl)) as [locals [Hrun _]].
  rewrite Hrun. repeat split.
Defined.

(** X11.  With the pending prompt [select_account] and a session, the
    request looks the session's account up.  When the account is found it
    renders the [select_account] view once, with the account's [email]
    claim ([undefined] when the claims have none), and resolves nothing.
    When no account is found the handler throws a type error before
    rendering or resolving anything, and the state is unchanged. *)
Theorem select_account_with_session (env : Env) (req : Request)
    (next : M unit) (s : State) (i : Interaction) (se : obj) :
  pending s = Some i →
  obj_get "name" (prompt i) = JStr "select_account" →
  session i = Some se →
  match Account_claims env (obj_get "accountId" se) with
  | Some claims =>
      ∃ locals,
        events (router env req next GetInteraction s)
        = [ EvSetHeader "Pragma" "no-cache";
            EvSetHeader "Cache-Control" "no-cache, no-store";
            EvInteractionDetails;
            EvClientFind (obj_get "client_id" (params i));
            EvFindAccount (obj_get "accountId" se);
            EvRender "select_account" locals ]
        ∧ outcome (router env req next GetInteraction s) = Returned tt
        ∧ obj_get "email" locals = obj_get "email" claims
        ∧ obj_get "uid" locals = JStr (uid i)
        ∧ obj_get "session" locals
          = JStr (debug (inspect env) se (keys s)).1
  | None =>
      ∃ message,
        router env req next GetInteraction s
        = (Thrown (TypeError message), s,
           [ EvSetHeader "Pragma" "no-cache";
             EvSetHeader "Cache-Control" "no-cache, no-store";
             EvInteractionDetails;
             EvClientFind (obj_get "client_id" (params i));
             EvFindAccount (obj_get "accountId" se) ])
  end.
Proof.
  intros Hp Hname Hsess.
  destruct (Account_claims env (obj_get "accountId" se)) as [claims|] eqn:Hc.
  - unfold_run. rewrite Hp, Hname, Hsess. simpl. rewrite Hc. simpl.
    eexists. split; [reflexivity |]. by repeat split.
  - unfold_run. rewrite Hp, Hname, Hsess. simpl. rewrite Hc. simpl.
    by eexists.
Qed.

Lemma select_account_with_session_witness :
  let known := sample_state "select_account"
                 (Some [ ("accountId", JStr "u1") ]) in
  let stale := sample_state "select_account"
                 (Some [ ("accountId", JStr "u9") ]) in
  let req := sample_request [] [] [] in
  rendered (events (router sample_env req (mret tt) GetInteraction known))
  = [ "select_account" ]
  ∧ (∃ message,
       outcome (router sample_env req (mret tt) GetInteraction stale)
       = Thrown (TypeError message))
  ∧ rendered (events (router sample_env req (mret tt) GetInteraction stale))
    = [].
Proof.
  intros known stale req.
  pose proof (select_account_with_session sample_env req (mret tt) known
                (sample_interaction "select_account"
                   (Some [ ("accountId", JStr "u1") ]))
                [ ("accountId", JStr "u1") ] eq_refl eq_refl eq_refl) as Hk.
  pose proof (select_account_with_session sample_env req (mret tt) stale
                (sample_interaction "select_account"
                   (Some [ ("accountId", JStr "u9") ]))
                [ ("accountId", JStr "u9") ] eq_refl eq_refl eq_refl) as Hs.
  hnf in Hk, Hs.
  destruct Hk as [locals [Hev _]]. destruct Hs as [message Hrun].
  split; [by rewrite Hev |].
  split; [exists message; by rewrite Hrun | by rewrite Hrun].
Defined.

(** X12.  With any other pending prompt name the handler renders and
    resolves nothing itself: after the interaction and client lookups it
    hands over to [next], whose outcome, final state and events become its
    own. *)
Theorem get_interaction_passes_unknown_prompt_on (env : Env) (req : Request)
    (next : M unit) (s : State) (i : Interaction) :
  pending s = Some i →
  js_is (obj_get "name" (prompt i)) "select_account" = false →
  js_is (obj_get "name" (prompt i)) "login" = false →
  js_is (obj_get "name" (prompt i)) "consent" = false →
  get_interaction env req next s
  = (outcome (next s), final (next s),
     [ EvInteractionDetails;
       EvClientFind (obj_get "client_id" (params i));
       EvNext ] ++ events (next s)).
Proof.
  intros Hp H1 H2 H3. unfold_run. rewrite Hp, H1, H2, H3.
  by destruct (next s) as [[[[]|e] s'] t].
Qed.

Lemma get_interaction_passes_unknown_prompt_on_witness :
  let s := sample_state "registration" None in
  get_interaction sample_env (sample_request [] [] [])
    (emit (EvStatus 404)) s
  = (Returned tt, s,
     [ EvInteractionDetails; EvClientFind (JStr "app"); EvNext;
       EvStatus 404 ]).
Proof.
  intros s.
  exact (get_interaction_passes_unknown_prompt_on sample_env
           (sample_request [] [] []) (emit (EvStatus 404)) s
           (sample_interaction "registration" None)
           eq_refl eq_refl eq_refl eq_refl).
Defined.

(** ** The federated handshake *)

Lemma split_on_absent (sep : ascii) (s : string) :
  has_char sep s = false → split_on sep s = [ s ].
Proof.
  unfold has_char. intros H%negb_false_iff.
  induction s as [|c s IH]; [done |].
  cbn [string_forall] in H. apply andb_true_iff in H as [Hc Hs].
  cbn [split_on]. rewrite Ascii.eqb_sym.
  apply negb_true_iff in Hc. rewrite Hc. by rewrite (IH Hs).
Qed.

Lemma to_hex_no_bar (bs : list Byte.byte) :
  has_char "|" (to_hex bs) = false.
Proof.
  unfold has_char. apply negb_false_iff.
  apply (string_forall_impl is_hex_digit); [| apply to_hex_digits].
  intros c Hc. destruct (Ascii.eqb_spec "|" c) as [<-|]; done.
Qed.

(** X13.  On initiation, when the cookie library accepts the [:uid] of
    the route, the handler writes two cookies and redirects once: the nonce
    cookie is the hexadecimal form, 64 digits, of the 32
    bytes drawn right after the 32 of the state; both cookies are scoped
    to [/interaction/<uid>/federated] with [sameSite] strict; the redirect
    goes to the authorization URL built from these very cookie values and
    the scope [openid email profile]; nothing is resolved or rendered, and
    64 bytes of entropy are consumed while the key set and the pending
    interaction stay as they were. *)
Theorem federated_initiation_response (env : Env) (req : Request)
    (s : State) (i : Interaction) :
  pending s = Some i →
  obj_get "name" (prompt i) = JStr "login" →
  obj_get "provider" (req_body req) = JStr "google" →
  obj_keys (req_callback req) = [] →
  string_forall field_char (req_uid req) = true →
  let run := post_federated env req s in
  let state := req_uid req +:+ "|" +:+ to_hex (draw env (drawn s) 32) in
  let nonce := to_hex (draw env (drawn s + 32) 32) in
  let scoped :=
    {| path := "/interaction/" +:+ req_uid req +:+ "/federated";
       sameSite := Some "strict" |} in
  outcome run = Returned tt
  ∧ cookie_written "google.state" (events run) = Some state
  ∧ cookie_written "google.nonce" (events run) = Some nonce
  ∧ String.length nonce = 64%nat
  ∧ string_forall is_hex_digit nonce = true
  ∧ cookie_opts_written "google.state" (events run) = Some scoped
  ∧ cookie_opts_written "google.nonce" (events run) = Some scoped
  ∧ redirects (events run)
    = [ authorizationUrl env state nonce "openid email profile" ]
  ∧ resolutions (events run) = []
  ∧ rendered (events run) = []
  ∧ exchanges (events run) = []
  ∧ final run
    = {| keys := keys s; drawn := (drawn s + 64)%nat; pending := pending s |}.
Proof.
  intros Hp Hname Hprov Hcb Huid run state nonce scoped. unfold run.
  rewrite (post_federated_initiate_run env req s i Hp Hname Hprov Hcb Huid).
  repeat split;
    first [ apply to_hex_digits
          | by unfold nonce; rewrite to_hex_length, draw_length
          | unfold final; cbn [fst snd]; f_equal; lia
          | reflexivity ].
Qed.

Lemma federated_initiation_response_witness :
  let req := sample_request [ ("provider", JStr "google") ] [] [] in
  let run := post_federated sample_env req (sample_state "login" None) in
  cookie_written "google.nonce" (events run)
  = Some "202122232425262728292a2b2c2d2e2f303132333435363738393a3b3c3d3e3f"
  ∧ cookie_opts_written "google.nonce" (events run)
    = Some {| path := "/interaction/abc/federated";
              sameSite := Some "strict" |}
  ∧ drawn (final run) = 64%nat.
Proof.
  intros req run.
  pose proof (federated_initiation_response sample_env req
                (sample_state "login" None)
                (sample_interaction "login" None)
                eq_refl eq_refl eq_refl eq_refl eq_refl) as H.
  cbv zeta in H. fold run in H.
  destruct H as (_ & _ & Hn & _ & _ & _ & Ho & _ & _ & _ & _ & Hf).
  split; [exact Hn |]. split; [exact Ho |].
  exact (f_equal drawn Hf).
Defined.

(** X14.  The state cookie can be read back: when the [:uid] of the route
    is accepted by the cookie library and holds no [|], splitting the
    cookie value at [|] gives exactly the uid and the 64 hexadecimal
    digits. *)
Theorem federated_state_splits_into_uid_and_entropy (env : Env)
    (req : Request) (s : State) (i : Interaction) :
  pending s = Some i →
  obj_get "name" (prompt i) = JStr "login" →
  obj_get "provider" (req_body req) = JStr "google" →
  obj_keys (req_callback req) = [] →
  string_forall field_char (req_uid req) = true →
  has_char "|" (req_uid req) = false →
  ∃ value,
    cookie_written "google.state" (events (post_federated env req s))
    = Some value
    ∧ split_on "|" value
      = [ req_uid req; to_hex (draw env (drawn s) 32) ].
Proof.
  intros Hp Hname Hprov Hcb Hok Huid.
  rewrite (post_federated_initiate_run env req s i Hp Hname Hprov Hcb Hok).
  eexists. split; [reflexivity |].
  change (req_uid req +:+ "|" +:+ to_hex (draw env (drawn s) 32))
    with (req_uid req +:+ String "|" (to_hex (draw env (drawn s) 32))).
  rewrite split_on_append.
  by rewrite (split_on_absent _ _ Huid), (split_on_absent _ _ (to_hex_no_bar _)).
Qed.

Lemma federated_state_splits_into_uid_and_entropy_witness :
  ∃ value,
    cookie_written "google.state"
      (events (post_federated sample_env
                 (sample_request [ ("provider", JStr "google") ] [] [])
                 (sample_state "login" None)))
    = Some value
    ∧ split_on "|" value
      = [ "abc";
          to_hex (draw sample_env 0 32) ].
Proof.
  exact (federated_state_splits_into_uid_and_entropy sample_env
           (sample_request [ ("provider", JStr "google") ] [] [])
           (sample_state "login" None) (sample_interaction "login" None)
           eq_refl eq_refl eq_refl eq_refl eq_refl eq_refl).
Defined.

Lemma request_cookie_missing (req : Request) (name : string) :
  name ∉ map fst (req_cookies req) → request_cookie req name = JUndefined.
Proof.
  unfold request_cookie. intros Hmiss.
  destruct (list_find _ (req_cookies req)) as [[n [k v]]|] eqn:Hf; [| done].
  apply list_find_Some in Hf as (Hl & Hk%bool_decide_unpack & _).
  exfalso. apply Hmiss. simpl in Hk. subst k.
  apply (list_elem_of_fmap_2 fst (req_cookies req) (name, v)).
  by eapply list_elem_of_lookup_2.
Qed.

(** X15.  Initiation and completion fit together.  When a completion
    request for the same uid, one the cookie library accepts, follows an
    initiation and carries back the two cookies the initiation wrote, the
    token exchange is called once, with the callback parameters and with
    exactly the state and the nonce that the initiation sent to the
    authorization URL; and the completion overwrites both cookies with the
    empty value on the same path the initiation had set them on. *)
Theorem federated_handshake_round_trip (env : Env) (start back : Request)
    (s : State) (i : Interaction) :
  pending s = Some i →
  obj_get "name" (prompt i) = JStr "login" →
  obj_get "provider" (req_body start) = JStr "google" →
  obj_keys (req_callback start) = [] →
  obj_get "provider" (req_body back) = JStr "google" →
  obj_keys (req_callback back) ≠ [] →
  req_uid back = req_uid start →
  string_forall field_char (req_uid start) = true →
  let first := post_federated env start s in
  let second := post_federated env back (final first) in
  request_cookie back "google.state"
  = echoed (cookie_written "google.state" (events first)) →
  request_cookie back "google.nonce"
  = echoed (cookie_written "google.nonce" (events first)) →
  let state := req_uid start +:+ "|" +:+ to_hex (draw env (drawn s) 32) in
  let nonce := to_hex (draw env (drawn s + 32) 32) in
  redirects (events first)
  = [ authorizationUrl env state nonce "openid email profile" ]
  ∧ exchanges (events second)
    = [ (req_callback back, JStr state, JStr nonce) ]
  ∧ cookie_written "google.state" (events second) = Some ""
  ∧ cookie_written "google.nonce" (events second) = Some ""
  ∧ path <$> cookie_opts_written "google.state" (events second)
    = path <$> cookie_opts_written "google.state" (events first)
  ∧ path <$> cookie_opts_written "google.nonce" (events second)
    = path <$> cookie_opts_written "google.nonce" (events first).
Proof.
  intros Hp Hname Hprov Hcb Hprov' Hcb' Huid Hok first second.
  assert (Hok' : string_forall field_char (req_uid back) = true)
    by (by rewrite Huid).
  pose proof (post_federated_initiate_run env start s i Hp Hname Hprov Hcb
                Hok) as R1.
  assert (Hs1 : cookie_written "google.state" (events first)
                = Some (req_uid start +:+ "|"
                        +:+ to_hex (draw env (drawn s) 32)))
    by (unfold first; by rewrite R1).
  assert (Hn1 : cookie_written "google.nonce" (events first)
                = Some (to_hex (draw env (drawn s + 32) 32)))
    by (unfold first; by rewrite R1).
  rewrite Hs1, Hn1. cbn [echoed]. intros Hstate Hnonce.
  unfold second, first. rewrite R1. unfold final. cbn [fst snd].
  rewrite (post_federated_complete_run env back
             {| keys := keys s; drawn := (drawn s + 32 + 32)%nat;
                pending := pending s |} i Hp Hname Hprov' Hcb' Hok').
  rewrite Hstate, Hnonce. unfold completion_prefix, federated_path.
  rewrite Huid. destruct (callback env _ _ _); by repeat split.
Qed.

Lemma federated_handshake_round_trip_witness :
  let start := sample_request [ ("provider", JStr "google") ] [] [] in
  let state :=
    "abc|000102030405060708090a0b0c0d0e0f101112131415161718191a1b1c1d1e1f" in
  let nonce :=
    "202122232425262728292a2b2c2d2e2f303132333435363738393a3b3c3d3e3f" in
  let back :=
    sample_request [ ("provider", JStr "google") ]
      [ ("google.state", state); ("google.nonce", nonce) ]
      [ ("state", JStr state); ("id_token", JStr "jwt") ] in
  let first := post_federated sample_env start (sample_state "login" None) in
  let second := post_federated sample_env back (final first) in
  exchanges (events second) = [ (req_callback back, JStr state, JStr nonce) ]
  ∧ resolutions (events second)
    = [ (JObj [ ("select_account", JObj []);
                ("login", JObj [ ("account", JStr "u1") ]) ], false) ].
Proof.
  intros start state nonce back first second.
  assert (Hcb : obj_keys (req_callback back) ≠ []) by discriminate.
  pose proof (federated_handshake_round_trip sample_env start back
                (sample_state "login" None)
                (sample_interaction "login" None)
                eq_refl eq_refl eq_refl eq_refl eq_refl Hcb eq_refl
                eq_refl eq_refl eq_refl) as H.
  split; [exact (proj1 (proj2 H)) | reflexivity].
Defined.

(** X16.  The completion branch has no guard on the cookies: when the
    request carries neither [google.state] nor [google.nonce] and its
    [:uid] is one the cookie library accepts, the token exchange is still
    called, once, with both [undefined]. *)
Theorem federated_completion_without_cookies (env : Env) (req : Request)
    (s : State) (i : Interaction) :
  pending s = Some i →
  obj_get "name" (prompt i) = JStr "login" →
  obj_get "provider" (req_body req) = JStr "google" →
  obj_keys (req_callback req) ≠ [] →
  string_forall field_char (req_uid req) = true →
  "google.state" ∉ map fst (req_cookies req) →
  "google.nonce" ∉ map fst (req_cookies req) →
  exchanges (events (post_federated env req s))
  = [ (req_callback req, JUndefined, JUndefined) ].
Proof.
  intros Hp Hname Hprov Hcb Huid Hst Hno.
  rewrite (post_federated_complete_run env req s i Hp Hname Hprov Hcb Huid).
  rewrite (request_cookie_missing req _ Hst),
    (request_cookie_missing req _ Hno).
  by destruct (callback env _ _ _).
Qed.

Lemma federated_completion_without_cookies_witness :
  let req := sample_request [ ("provider", JStr "google") ]
               [ ("_interaction", "abc") ] [ ("state", JStr "forged") ] in
  exchanges (events (post_federated sample_env req
                       (sample_state "login" None)))
  = [ ([ ("state", JStr "forged") ], JUndefined, JUndefined) ]
  ∧ outcome (post_federated sample_env req (sample_state "login" None))
    = Thrown (OtherError "state missing").
Proof.
  intros req.
  assert (Hcb : obj_keys (req_callback req) ≠ []) by discriminate.
  assert (Hst : "google.state" ∉ map fst (req_cookies req)).
  { apply (bool_decide_unpack _). vm_compute. exact I. }
  assert (Hno : "google.nonce" ∉ map fst (req_cookies req)).
  { apply (bool_decide_unpack _). vm_compute. exact I. }
  split; [| reflexivity].
  exact (federated_completion_without_cookies sample_env req
           (sample_state "login" None) (sample_interaction "login" None)
           eq_refl eq_refl eq_refl Hcb eq_refl Hst Hno).
Defined.

(** X25.  A [:uid] the cookie library rejects stops the federated route
    with a [TypeError] before anything is sent: no cookie is written, no
    token exchange is called, nothing is redirected or resolved.  On
    initiation the error comes from the write of the state cookie, after
    both draws, so 64 bytes of entropy are consumed; on completion it comes
    from the first clearing write, after the state cookie has been read,
    and the state is unchanged. *)
Theorem federated_rejected_uid_throws (env : Env) (req : Request)
    (s : State) (i : Interaction) :
  pending s = Some i →
  obj_get "name" (prompt i) = JStr "login" →
  obj_get "provider" (req_body req) = JStr "google" →
  string_forall field_char (req_uid req) = false →
  let run := post_federated env req s in
  (∃ message, outcome run = Thrown (TypeError message))
  ∧ cookie_written "google.state" (events run) = None
  ∧ cookie_written "google.nonce" (events run) = None
  ∧ exchanges (events run) = []
  ∧ redirects (events run) = []
  ∧ resolutions (events run) = []
  ∧ (obj_keys (req_callback req) = [] →
     events run
     = [ EvInteractionDetails; EvCallbackParams;
         EvRandomBytes 32; EvRandomBytes 32 ]
     ∧ final run
       = {| keys := keys s; drawn := (drawn s + 64)%nat;
            pending := pending s |})
  ∧ (obj_keys (req_callback req) ≠ [] →
     events run
     = [ EvInteractionDetails; EvCallbackParams; EvCookieGet "google.state" ]
     ∧ final run = s).
Proof.
  intros Hp Hname Hprov Huid run. unfold run.
  destruct (obj_keys (req_callback req)) as [|k ks] eqn:Hcb.
  - rewrite (post_federated_initiate_rejected env req s i Hp Hname Hprov Hcb
               Huid).
    split; [by eexists |]. do 5 (split; [done |]).
    split; [| done]. intros _. split; [done |].
    unfold final. cbn [fst snd]. f_equal. lia.
  - assert (Hne : obj_keys (req_callback req) ≠ []) by (by rewrite Hcb).
    rewrite (post_federated_complete_rejected env req s i Hp Hname Hprov Hne
               Huid).
    split; [by eexists |]. do 5 (split; [done |]).
    split; done.
Qed.

Lemma federated_rejected_uid_throws_witness :
  let line_feed := String "010"%char EmptyString in
  let start :=
    {| req_uid := line_feed; req_body := [ ("provider", JStr "google") ];
       req_cookies := []; req_callback := [] |} in
  let back :=
    {| req_uid := line_feed; req_body := [ ("provider", JStr "google") ];
       req_cookies := [ ("google.state", "abc|00"); ("google.nonce", "11") ];
       req_callback := [ ("state", JStr "abc|00") ] |} in
  let s := sample_state "login" None in
  string_forall field_char line_feed = false
  ∧ redirects (events (post_federated sample_env start s)) = []
  ∧ drawn (final (post_federated sample_env start s)) = 64%nat
  ∧ exchanges (events (post_federated sample_env back s)) = []
  ∧ cookie_written "google.state" (events (post_federated sample_env back s))
    = None.
Proof.
  intros line_feed start back s.
  pose proof (federated_rejected_uid_throws sample_env start s
                (sample_interaction "login" None)
                eq_refl eq_refl eq_refl eq_refl) as Hs.
  pose proof (federated_rejected_uid_throws sample_env back s
                (sample_interaction "login" None)
                eq_refl eq_refl eq_refl eq_refl) as Hb.
  cbv zeta in Hs, Hb.
  destruct Hs as (_ & _ & _ & _ & Hr & _ & Hi & _).
  destruct Hb as (_ & Hc & _ & Hx & _).
  split; [reflexivity |]. split; [exact Hr |].
  split; [exact (f_equal drawn (proj2 (Hi eq_refl))) |].
  split; [exact Hx | exact Hc].
Defined.

(** ** Switching account on the continue route *)

Lemma obj_get_set_ne (k k' : string) (v : JsVal) (o : obj) :
  k ≠ k' → obj_get k (obj_set k' v o) = obj_get k o.
Proof.
  intros Hne. induction o as [|[k0 v0] o IH]; simpl.
  - by destruct (String.eqb_spec k k').
  - destruct (String.eqb_spec k' k0) as [->|Hk0]; simpl.
    + destruct (String.eqb_spec k k0); [done | done].
    + destruct (String.eqb_spec k k0); [done | apply IH].
Qed.

Lemma obj_set_length {A : Type} (k : string) (v : A)
    (o : list (string * A)) :
  (length o ≤ length (obj_set k v o) ≤ S (length o))%nat.
Proof.
  induction o as [|[k0 v0] o IH]; simpl; [lia |].
  destruct (String.eqb k k0); simpl; lia.
Qed.

Lemma appended_login_truthy (p : string) :
  truthy (JStr (p +:+ " login")) = true.
Proof. by destruct p. Qed.

Lemma switch_account_run (i : Interaction) (s : State) :
  (∃ p, obj_get "prompt" (params i) = JStr p)
  ∨ truthy (obj_get "prompt" (params i)) = false →
  ∃ value,
    switch_account i s
    = (Returned tt,
       {| keys := keys s; drawn := drawn s;
          pending := Some (set_prompt i value) |},
       [ EvSave (set_prompt i value) ])
    ∧ truthy (JStr value) = true
    ∧ (value = "logout"
       ∨ ∃ p, obj_get "prompt" (params i) = JStr p ∧ p ≠ ""
              ∧ value = p +:+ " login").
Proof.
  intros Hshape. unfold switch_account.
  destruct (truthy (obj_get "prompt" (params i))) eqn:Ht.
  - destruct Hshape as [[p Hp]|Hf]; [| done].
    rewrite Hp in *. rewrite join_split_login.
    exists (p +:+ " login"). split; [done |].
    split; [apply appended_login_truthy |].
    right. exists p. split; [done |]. split; [| done].
    intros ->. done.
  - exists "logout". split; [done |]. split; [done |]. by left.
Qed.

(** X17.  A switch changes nothing but [params.prompt].  When the stored
    prompt is a string or is unset, the record saved by a switch has the
    same uid, prompt and session and the same value under every other
    parameter name; it gains at most one parameter; its [params.prompt] is
    a non-empty string afterwards; and the key set and the draw count of
    the state are untouched. *)
Theorem switch_changes_only_the_prompt (env : Env) (req : Request)
    (s : State) (i : Interaction) :
  pending s = Some i →
  obj_get "name" (prompt i) = JStr "select_account" →
  truthy (obj_get "switch" (req_body req)) = true →
  (∃ p, obj_get "prompt" (params i) = JStr p)
  ∨ truthy (obj_get "prompt" (params i)) = false →
  ∃ i',
    final (post_continue env req s)
    = {| keys := keys s; drawn := drawn s; pending := Some i' |}
    ∧ uid i' = uid i ∧ prompt i' = prompt i ∧ session i' = session i
    ∧ (∀ k, k ≠ "prompt" → obj_get k (params i') = obj_get k (params i))
    ∧ truthy (obj_get "prompt" (params i')) = true
    ∧ (length (params i) ≤ length (params i') ≤ S (length (params i)))%nat.
Proof.
  intros Hp Hname Hsw Hshape.
  destruct (switch_account_run i s Hshape) as (value & Hrun & Htruthy & _).
  exists (set_prompt i value). split.
  - unfold post_continue, mbind, M_bind, bind, interactionDetails.
    rewrite Hp, Hname, Hsw. cbn [assert_equal js_is]. simpl.
    rewrite Hrun. reflexivity.
  - repeat split; try reflexivity.
    + intros k Hk. by apply obj_get_set_ne.
    + simpl. by rewrite obj_get_set_eq.
    + apply obj_set_length.
    + apply obj_set_length.
Qed.

Lemma switch_changes_only_the_prompt_witness :
  let s := sample_state "select_account" (Some [ ("accountId", JStr "u1") ]) in
  let req := sample_request [ ("switch", JStr "true") ] [] [] in
  ∃ i',
    pending (final (post_continue sample_env req s)) = Some i'
    ∧ obj_get "client_id" (params i') = JStr "app"
    ∧ session i' = Some [ ("accountId", JStr "u1") ].
Proof.
  intros s req.
  destruct (switch_changes_only_the_prompt sample_env req s
              (sample_interaction "select_account"
                 (Some [ ("accountId", JStr "u1") ]))
              eq_refl eq_refl eq_refl
              (or_introl (ex_intro _ "consent" eq_refl)))
    as (i' & Hf & _ & _ & Hs & Hframe & _).
  exists i'. split; [by rewrite Hf |].
  split; [| exact Hs]. rewrite Hframe; [reflexivity | discriminate].
Defined.

(** X18.  Switching is not idempotent.  Two switch submissions in a row
    append [login] twice to a prompt list that was set, and turn an unset
    prompt into [logout login]: after the first switch the prompt is
    always set, so the second always appends. *)
Theorem switch_twice_appends_twice (env : Env) (req : Request) (s : State)
    (i : Interaction) :
  pending s = Some i →
  obj_get "name" (prompt i) = JStr "select_account" →
  truthy (obj_get "switch" (req_body req)) = true →
  let once := final (post_continue env req s) in
  let twice := final (post_continue env req once) in
  (∀ p, obj_get "prompt" (params i) = JStr p → p ≠ "" →
        pending twice
        = Some (set_prompt (set_prompt i (p +:+ " login"))
                  (p +:+ " login login")))
  ∧ (truthy (obj_get "prompt" (params i)) = false →
     pending twice
     = Some (set_prompt (set_prompt i "logout") "logout login")).
Proof.
  intros Hp Hname Hsw once twice. unfold twice, once.
  assert (Hstep : ∀ (st : State) (j : Interaction) (q : string),
    pending st = Some j →
    obj_get "name" (prompt j) = JStr "select_account" →
    obj_get "prompt" (params j) = JStr q → q ≠ "" →
    final (post_continue env req st)
    = {| keys := keys st; drawn := drawn st;
         pending := Some (set_prompt j (q +:+ " login")) |}).
  { intros st j q Hst Hn Hq Hne. unfold_run. rewrite Hst, Hn, Hsw, Hq.
    by rewrite (truthy_string q Hne), join_split_login. }
  split.
  - intros p Hprompt Hne.
    rewrite (Hstep s i p Hp Hname Hprompt Hne).
    rewrite (Hstep {| keys := keys s; drawn := drawn s;
                      pending := Some (set_prompt i (p +:+ " login")) |}
               (set_prompt i (p +:+ " login")) (p +:+ " login")
               eq_refl Hname (obj_get_set_eq _ _ _)).
    + cbn [pending]. by rewrite append_assoc.
    + by destruct p.
  - intros Hfalsy.
    assert (Hfirst : final (post_continue env req s)
              = {| keys := keys s; drawn := drawn s;
                   pending := Some (set_prompt i "logout") |}).
    { unfold_run. by rewrite Hp, Hname, Hsw, Hfalsy. }
    rewrite Hfirst.
    by rewrite (Hstep {| keys := keys s; drawn := drawn s;
                         pending := Some (set_prompt i "logout") |}
                  (set_prompt i "logout") "logout"
                  eq_refl Hname (obj_get_set_eq _ _ _)).
Qed.

Lemma switch_twice_appends_twice_witness :
  let s := sample_state "select_account" None in
  let req := sample_request [ ("switch", JStr "1") ] [] [] in
  (params <$> pending (final (post_continue sample_env req
                                (final (post_continue sample_env req s)))))
  = Some [ ("client_id", JStr "app");
           ("prompt", JStr "consent login login") ].
Proof.
  intros s req.
  assert (Hne : "consent" ≠ "") by discriminate.
  rewrite (proj1 (switch_twice_appends_twice sample_env req s
                    (sample_interaction "select_account" None)
                    eq_refl eq_refl eq_refl) "consent" eq_refl Hne).
  reflexivity.
Defined.

(** X19.  When a switch is asked for and [params.prompt] is set to a
    value that is not a string, splitting it fails: the handler throws a
    type error right after the interaction lookup, nothing is saved, nothing
    is resolved and the state is unchanged. *)
Theorem switch_on_non_string_prompt_throws (env : Env) (req : Request)
    (s : State) (i : Interaction) :
  pending s = Some i →
  obj_get "name" (prompt i) = JStr "select_account" →
  truthy (obj_get "switch" (req_body req)) = true →
  truthy (obj_get "prompt" (params i)) = true →
  (∀ p, obj_get "prompt" (params i) ≠ JStr p) →
  ∃ message,
    post_continue env req s
    = (Thrown (TypeError message), s, [ EvInteractionDetails ]).
Proof.
  intros Hp Hname Hsw Ht Hns. unfold_run. rewrite Hp, Hname, Hsw, Ht.
  destruct (obj_get "prompt" (params i)) as [| | | |p| |];
    try (eexists; reflexivity).
  by destruct (Hns p).
Qed.

Lemma switch_on_non_string_prompt_throws_witness :
  let i := {| uid := "abc";
              prompt := [ ("name", JStr "select_account") ];
              params := [ ("prompt", JArr [ JStr "consent" ]) ];
              session := None |} in
  let s := {| keys := ∅; drawn := 0; pending := Some i |} in
  let req := sample_request [ ("switch", JStr "1") ] [] [] in
  ∃ message,
    post_continue sample_env req s
    = (Thrown (TypeError message), s, [ EvInteractionDetails ]).
Proof.
  intros i s req.
  assert (Hns : ∀ p, obj_get "prompt" (params i) ≠ JStr p)
    by (intros p; discriminate).
  exact (switch_on_non_string_prompt_throws sample_env req s i
           eq_refl eq_refl eq_refl eq_refl Hns).
Defined.

(** ** The middleware around any handler *)

(** X20.  Whatever the handler does, the middleware writes the two
    no-cache headers before the handler's first event and keeps all of the
    handler's events in order.  After them it adds nothing, except when the
    handler throws [SessionNotFound]: then it adds exactly three writes to
    the response, the error's status, the type [html] and the error page
    as body.  It ends in the state the handler ended in, returns when the
    handler returns, and never lets a [SessionNotFound] out. *)
Theorem middleware_wraps_any_handler (body : M unit) (s : State) :
  let added :=
    match outcome (body s) with
    | Thrown (SessionNotFound status message description) =>
        [ EvStatus status; EvType "html";
          EvBody (error_page [ ("error", Some message);
                               ("error_description", description) ]) ]
    | _ => []
    end in
  events (use_no_cache body s)
  = EvSetHeader "Pragma" "no-cache"
    :: EvSetHeader "Cache-Control" "no-cache, no-store"
    :: events (body s) ++ added
  ∧ final (use_no_cache body s) = final (body s)
  ∧ (∀ status message description,
       outcome (use_no_cache body s)
       ≠ Thrown (SessionNotFound status message description))
  ∧ (∀ a, outcome (body s) = Returned a →
          use_no_cache body s
          = (Returned a, final (body s),
             EvSetHeader "Pragma" "no-cache"
             :: EvSetHeader "Cache-Control" "no-cache, no-store"
             :: events (body s))).
Proof.
  unfold_run. destruct (body s) as [[[[]|e] s'] t]; cbn [fst snd].
  - split; [by rewrite app_nil_r |].
    split; [done |]. split; [done |]. by intros [] _.
  - destruct e; cbn [fst snd]; rewrite ?app_nil_r;
      (split; [done |]); (split; [done |]); (split; [done |]);
      by intros a [=].
Qed.

(** ** One answer per request *)

Lemma quiet_resolutions (t : list Event) :
  Forall quiet t → resolutions t = [] ∧ rendered t = [].
Proof.
  induction 1 as [|ev t Hev _ [IHr IHv]]; [done |].
  destruct ev; try done; simpl; by rewrite ?IHr, ?IHv.
Qed.

Lemma at_most_once_quiet {A : Type} (m : M A) :
  emits_only quiet m → at_most_once m.
Proof.
  intros Hm s. destruct (quiet_resolutions _ (Hm s)) as [-> ->]. simpl. lia.
Qed.

Lemma at_most_once_emit (ev : Event) : at_most_once (emit ev).
Proof. intros s. destruct ev; simpl; lia. Qed.

Lemma at_most_once_finished (env : Env) (res : JsVal) (b : bool) :
  at_most_once (interactionFinished env res b).
Proof.
  intros s. unfold interactionFinished, events.
  destruct (pending s); simpl; lia.
Qed.

Lemma at_most_once_bind {A B : Type} (m : M A) (k : A → M B) :
  emits_only quiet m → (∀ a, at_most_once (k a)) →
  at_most_once (m ≫= k).
Proof.
  intros Hm Hk s. specialize (Hm s).
  unfold mbind, M_bind, bind, events in *.
  destruct (m s) as [[[a|e] s'] t]; cbn [fst snd] in *.
  - rewrite resolutions_app, rendered_app.
    destruct (quiet_resolutions t Hm) as [-> ->]. apply Hk.
  - destruct (quiet_resolutions t Hm) as [-> ->]. simpl. lia.
Qed.

Lemma at_most_once_try_catch {A : Type} (m : M A) (h : JsError → M A) :
  at_most_once m → (∀ e, emits_only quiet (h e)) →
  at_most_once (try_catch m h).
Proof.
  intros Hm Hh s. specialize (Hm s). unfold try_catch, events in *.
  destruct (m s) as [[[a|e] s'] t]; cbn [fst snd] in *; [done |].
  rewrite resolutions_app, rendered_app.
  destruct (quiet_resolutions _ (Hh e s')) as [Hr Hv].
  unfold events in Hr, Hv. rewrite Hr, Hv, !app_nil_r. done.
Qed.

(** Decomposes a handler whose calls before the last are all quiet. *)
Ltac answers_once :=
  repeat first
    [ apply at_most_once_emit
    | apply at_most_once_finished
    | apply at_most_once_bind;
        [ emits_with ltac:(exact I) | intros ? ]
    | apply at_most_once_quiet; solve [ emits_with ltac:(exact I) ]
    | match goal with
      | |- at_most_once (if ?b then _ else _) => destruct b
      | |- at_most_once (match ?x with _ => _ end) => destruct x
      end ].

Lemma handler_at_most_once (env : Env) (req : Request) (next : M unit)
    (r : Route) :
  at_most_once next → at_most_once (handler env req next r).
Proof.
  intros Hnext.
  destruct r; simpl;
    unfold get_interaction, get_callback_google, post_login, post_federated,
      post_continue, post_confirm, get_abort, federated_complete,
      federated_initiate, switch_account, session_panel, dbg_panel,
      cookies_get, cookies_set;
    answers_once; try exact Hnext.
Qed.

(** X21.  One answer per request.  On every route and from every state,
    a request makes at most one resolution and renders at most one view,
    and never does both, provided the middleware that follows the router
    (reached only for an unknown prompt) does the same. *)
Theorem router_answers_at_most_once (env : Env) (req : Request)
    (next : M unit) (r : Route) (s : State) :
  at_most_once next →
  (length (resolutions (events (router env req next r s)))
   + length (rendered (events (router env req next r s))) ≤ 1)%nat.
Proof.
  intros Hnext. revert s. change (at_most_once (router env req next r)).
  unfold router, use_no_cache, renderError.
  apply at_most_once_bind; [emits_with ltac:(exact I) | intros _].
  apply at_most_once_bind; [emits_with ltac:(exact I) | intros _].
  apply at_most_once_try_catch; [by apply handler_at_most_once |].
  intros e. destruct e; emits_with ltac:(exact I).
Qed.

Lemma router_answers_at_most_once_witness :
  at_most_once (mret tt : M unit)
  ∧ (length (resolutions
               (events (router sample_env (sample_request [] [] [])
                          (mret tt) GetInteraction
                          (sample_state "login" None))))
     + length (rendered
                 (events (router sample_env (sample_request [] [] [])
                            (mret tt) GetInteraction
                            (sample_state "login" None)))) ≤ 1)%nat.
Proof.
  assert (Hnext : at_most_once (mret tt : M unit)).
  { intros s. simpl. lia. }
  split; [exact Hnext |].
  exact (router_answers_at_most_once sample_env (sample_request [] [] [])
           (mret tt) GetInteraction (sample_state "login" None) Hnext).
Defined.

(** ** What each route may change in the state *)

Section Moves.
Variable R : State → State → Prop.
Hypothesis R_refl : ∀ s, R s s.
Hypothesis R_trans : ∀ a b c, R a b → R b c → R a c.

Lemma moves_ret {A : Type} (a : A) : moves_by R (mret a).
Proof. intros s. apply R_refl. Qed.

Lemma moves_throw {A : Type} (e : JsError) : moves_by R (@throw A e).
Proof. intros s. apply R_refl. Qed.

Lemma moves_emit (ev : Event) : moves_by R (emit ev).
Proof. intros s. apply R_refl. Qed.

Lemma moves_bind {A B : Type} (m : M A) (k : A → M B) :
  moves_by R m → (∀ a, moves_by R (k a)) → moves_by R (m ≫= k).
Proof.
  intros Hm Hk s. specialize (Hm s).
  unfold mbind, M_bind, bind, final in *.
  destruct (m s) as [[[a|e] s'] t]; cbn [fst snd] in *; [| done].
  eapply R_trans; [exact Hm | apply Hk].
Qed.

Lemma moves_try_catch {A : Type} (m : M A) (h : JsError → M A) :
  moves_by R m → (∀ e, moves_by R (h e)) → moves_by R (try_catch m h).
Proof.
  intros Hm Hh s. specialize (Hm s). unfold try_catch, final in *.
  destruct (m s) as [[[a|e] s'] t]; cbn [fst snd] in *; [done |].
  eapply R_trans; [exact Hm | apply Hh].
Qed.

Lemma moves_interactionDetails (env : Env) :
  moves_by R (interactionDetails env).
Proof.
  intros s. unfold interactionDetails, final.
  destruct (pending s); apply R_refl.
Qed.

Lemma moves_interactionFinished (env : Env) (res : JsVal) (b : bool) :
  moves_by R (interactionFinished env res b).
Proof.
  intros s. unfold interactionFinished, final.
  destruct (pending s); apply R_refl.
Qed.

Lemma moves_assert_equal (v : JsVal) (expected : string) :
  moves_by R (assert_equal v expected).
Proof.
  unfold assert_equal. destruct (js_is v expected);
    [apply moves_ret | apply moves_throw].
Qed.

Lemma moves_google_callback (env : Env) (cbp : obj) (st no : JsVal) :
  moves_by R (google_callback env cbp st no).
Proof. intros s. apply R_refl. Qed.
End Moves.

(** Decomposes a handler; [tac] proves the steps that do change the
    state.  The reflexivity and transitivity of the relation are left as
    goals. *)
Ltac moves_with tac :=
  repeat
    match goal with
    | |- moves_by _ (if ?b then _ else _) => destruct b
    | |- moves_by _ (match ?x with _ => _ end) => destruct x
    | |- moves_by _ _ =>
        first
          [ apply moves_ret
          | apply moves_throw
          | apply moves_emit
          | apply moves_assert_equal
          | apply moves_interactionDetails
          | apply moves_interactionFinished
          | apply moves_google_callback
          | apply moves_bind; [ | | intros ? ]
          | apply moves_try_catch; [ | | intros ? ]
          | solve [ tac ] ]
    end.

(** The relations the routes keep. *)
Lemma same_state_trans (a b c : State) : a = b → b = c → a = c.
Proof. congruence. Qed.

Lemma draw_only_trans (a b c : State) :
  keys b = keys a ∧ pending b = pending a ∧ (drawn a ≤ drawn b)%nat →
  keys c = keys b ∧ pending c = pending b ∧ (drawn b ≤ drawn c)%nat →
  keys c = keys a ∧ pending c = pending a ∧ (drawn a ≤ drawn c)%nat.
Proof. intros (-> & -> & ?) (-> & -> & ?). repeat split. lia. Qed.

Lemma pending_only_trans (a b c : State) :
  keys b = keys a ∧ drawn b = drawn a →
  keys c = keys b ∧ drawn c = drawn b →
  keys c = keys a ∧ drawn c = drawn a.
Proof. intros (-> & ->) (-> & ->). done. Qed.

Lemma keys_only_trans (a b c : State) :
  keys a ⊆ keys b ∧ drawn b = drawn a ∧ pending b = pending a →
  keys b ⊆ keys c ∧ drawn c = drawn b ∧ pending c = pending b →
  keys a ⊆ keys c ∧ drawn c = drawn a ∧ pending c = pending a.
Proof. intros (? & -> & ->) (? & -> & ->). repeat split. set_solver. Qed.

Lemma debugM_keys_only (env : Env) (o : obj) :
  moves_by (λ a b, keys a ⊆ keys b ∧ drawn b = drawn a
                   ∧ pending b = pending a) (debugM env o).
Proof.
  intros s. unfold debugM, final. cbn [fst snd keys drawn pending].
  rewrite debug_keys. repeat split. set_solver.
Qed.

(** X22.  What a request can change.  The callback, login, confirm and
    abort routes leave the state exactly as it was.  The federated route
    can only draw random bytes: the key set and the pending interaction
    stay.  The continue route can only replace the pending interaction:
    the key set and the draw count stay.  The interaction route can only
    add to the debug serializer's key set, which never loses a key, as
    long as the middleware that follows the router does no more than
    that. *)
Theorem route_state_footprint (env : Env) (req : Request) (next : M unit)
    (s : State) :
  moves_by (λ a b, keys a ⊆ keys b ∧ drawn b = drawn a
                   ∧ pending b = pending a) next →
  final (router env req next GetCallbackGoogle s) = s
  ∧ final (router env req next PostLogin s) = s
  ∧ final (router env req next PostConfirm s) = s
  ∧ final (router env req next GetAbort s) = s
  ∧ (keys (final (router env req next PostFederated s)) = keys s
     ∧ pending (final (router env req next PostFederated s)) = pending s
     ∧ (drawn s ≤ drawn (final (router env req next PostFederated s)))%nat)
  ∧ (keys (final (router env req next PostContinue s)) = keys s
     ∧ drawn (final (router env req next PostContinue s)) = drawn s)
  ∧ (keys s ⊆ keys (final (router env req next GetInteraction s))
     ∧ drawn (final (router env req next GetInteraction s)) = drawn s
     ∧ pending (final (router env req next GetInteraction s)) = pending s).
Proof.
  intros Hnext.
  assert (Hsame : ∀ r, r = GetCallbackGoogle ∨ r = PostLogin
                       ∨ r = PostConfirm ∨ r = GetAbort →
                       moves_by (λ a b, a = b) (router env req next r)).
  { intros r Hr.
    unfold router, use_no_cache, renderError.
    destruct Hr as [-> | [-> | [-> | ->]]]; simpl;
      unfold get_callback_google, post_login, post_confirm, get_abort;
      moves_with fail; eauto using same_state_trans. }
  assert (Hfed : moves_by (λ a b, keys b = keys a ∧ pending b = pending a
                                  ∧ (drawn a ≤ drawn b)%nat)
                   (router env req next PostFederated)).
  { unfold router, use_no_cache, renderError. simpl.
    unfold post_federated, federated_complete, federated_initiate,
      cookies_get, cookies_set.
    moves_with ltac:(intros st; unfold randomBytes, final;
                     cbn [fst snd keys drawn pending];
                     repeat split; lia);
      eauto using draw_only_trans. }
  assert (Hcont : moves_by (λ a b, keys b = keys a ∧ drawn b = drawn a)
                    (router env req next PostContinue)).
  { unfold router, use_no_cache, renderError. simpl.
    unfold post_continue, switch_account.
    moves_with ltac:(intros st; by unfold save, final);
      eauto using pending_only_trans. }
  assert (Hget : moves_by (λ a b, keys a ⊆ keys b ∧ drawn b = drawn a
                                  ∧ pending b = pending a)
                   (router env req next GetInteraction)).
  { unfold router, use_no_cache, renderError. simpl.
    unfold get_interaction, session_panel, dbg_panel.
    moves_with ltac:(first [ apply debugM_keys_only | exact Hnext ]);
      eauto using keys_only_trans. }
  split; [symmetry; apply (Hsame GetCallbackGoogle); auto |].
  split; [symmetry; apply (Hsame PostLogin); auto |].
  split; [symmetry; apply (Hsame PostConfirm); auto |].
  split; [symmetry; apply (Hsame GetAbort); auto 6 |].
  split; [apply Hfed |]. split; [apply Hcont | apply Hget].
Qed.

Lemma route_state_footprint_witness :
  let s := sample_state "login" (Some [ ("accountId", JStr "u1") ]) in
  let req := sample_request [ ("login", JStr "alice") ] [] [] in
  moves_by (λ a b, keys a ⊆ keys b ∧ drawn b = drawn a
                   ∧ pending b = pending a) (mret tt : M unit)
  ∧ final (router sample_env req (mret tt) PostLogin s) = s
  ∧ keys s ⊆ keys (final (router sample_env req (mret tt) GetInteraction s)).
Proof.
  intros s req.
  assert (Hnext : moves_by (λ a b, keys a ⊆ keys b ∧ drawn b = drawn a
                                   ∧ pending b = pending a)
                    (mret tt : M unit)).
  { intros st. by repeat split. }
  pose proof (route_state_footprint sample_env req (mret tt) s Hnext) as H.
  split; [exact Hnext |].
  split; [exact (proj1 (proj2 H)) |].
  exact (proj1 (proj2 (proj2 (proj2 (proj2 (proj2 (proj2 H))))))).
Defined.

(** ** The error page *)

Lemma scan_closed_append (a b : string) :
  tags_closed a →
  scan_tags None (a +:+ b)
  = (tags_of a ++ (scan_tags None b).1, (scan_tags None b).2).
Proof.
  unfold tags_closed, tags_of. intros Ha.
  by rewrite scan_tags_append, Ha.
Qed.

Lemma error_line_scan (kv : string * option string) (rest : string) :
  tags_closed kv.1 → tags_closed (template_value kv.2) →
  scan_tags None (error_line kv +:+ rest)
  = (error_line_tags kv ++ (scan_tags None rest).1,
     (scan_tags None rest).2).
Proof.
  intros Hk Hv. unfold error_line, error_line_tags.
  rewrite !append_assoc.
  rewrite (scan_closed_append "<pre><strong>") by done.
  rewrite (scan_closed_append kv.1) by done.
  rewrite (scan_closed_append "</strong>: ") by done.
  rewrite (scan_closed_append (template_value kv.2)) by done.
  rewrite (scan_closed_append "</pre>") by done.
  cbn [fst snd]. by rewrite <- !app_assoc.
Qed.

Lemma error_lines_scan (out : list (string * option string))
    (rest : string) :
  Forall (λ kv, tags_closed kv.1 ∧ tags_closed (template_value kv.2)) out →
  scan_tags None (join "" (map error_line out) +:+ rest)
  = (flat_map error_line_tags out ++ (scan_tags None rest).1,
     (scan_tags None rest).2).
Proof.
  unfold join. induction 1 as [|kv out [Hk Hv] Hall IH].
  - cbn [map String.concat flat_map app]. rewrite append_nil_l.
    by destruct (scan_tags None rest) as [ts st].
  - assert (Hjoin : String.concat "" (map error_line (kv :: out))
                    = error_line kv +:+ String.concat "" (map error_line out)).
    { destruct out; simpl; [by rewrite append_nil_r | done]. }
    rewrite Hjoin, append_assoc, error_line_scan by done.
    rewrite IH. cbn [fst snd flat_map]. by rewrite <- !app_assoc.
Qed.

(** X23.  The error renderer escapes nothing and adds nothing of its own
    beyond its template: when the names and values it is given leave no
    tag open, the tags of the page are the tags of the fixed head, then
    for each entry in order [pre], [strong], whatever tags the name holds,
    [/strong], whatever tags the value holds, [/pre], then the tags of the
    fixed tail; and the page leaves no tag open. *)
Theorem error_page_markup (out : list (string * option string)) :
  Forall (λ kv, tags_closed kv.1 ∧ tags_closed (template_value kv.2)) out →
  scan_tags None (error_page out)
  = (tags_of page_head ++ flat_map error_line_tags out ++ tags_of page_tail,
     None).
Proof.
  intros Hall. unfold error_page.
  rewrite (scan_closed_append page_head) by (vm_compute; reflexivity).
  rewrite error_lines_scan by done.
  cbn [fst snd]. reflexivity.
Qed.

Lemma error_page_markup_witness :
  let out := [ ("error", Some "invalid_request");
               ("error_description", Some "<b>gone</b>") ] in
  Forall (λ kv, tags_closed kv.1 ∧ tags_closed (template_value kv.2)) out
  ∧ flat_map error_line_tags out
    = [ "pre"; "strong"; "/strong"; "/pre";
        "pre"; "strong"; "/strong"; "b"; "/b"; "/pre" ]
  ∧ (scan_tags None (error_page out)).2 = None.
Proof.
  intros out.
  assert (Hall : Forall (λ kv, tags_closed kv.1
                               ∧ tags_closed (template_value kv.2)) out).
  { repeat constructor. }
  split; [exact Hall |]. split; [reflexivity |].
  exact (f_equal snd (error_page_markup out Hall)).
Defined.

(** ** Routes that do not look at the prompt *)

(** X24.  The abort route resolves whatever the pending prompt and
    session are: it reads no interaction details and asserts nothing, and
    makes exactly one resolution, the [access_denied] error with
    [mergeWithLastSubmission] false.  The callback page is rendered in
    every state, also when no interaction is pending, without any call on
    the engine. *)
Theorem routes_without_prompt_check (env : Env) (req : Request)
    (next : M unit) (s : State) (i : Interaction) :
  pending s = Some i →
  router env req next GetAbort s
  = (Returned tt, s,
     [ EvSetHeader "Pragma" "no-cache";
       EvSetHeader "Cache-Control" "no-cache, no-store";
       EvInteractionFinished
         (JObj [ ("error", JStr "access_denied");
                 ("error_description", JStr "End-User aborted interaction") ])
         false ])
  ∧ ∀ s', router env req next GetCallbackGoogle s'
          = (Returned tt, s',
             [ EvSetHeader "Pragma" "no-cache";
               EvSetHeader "Cache-Control" "no-cache, no-store";
               EvRender "repost"
                 [ ("provider", JStr "google"); ("layout", JBool false) ] ]).
Proof.
  intros Hp. split; [| done]. unfold_run. by rewrite Hp.
Qed.

Lemma routes_without_prompt_check_witness :
  let s := sample_state "consent" (Some [ ("accountId", JStr "u1") ]) in
  let gone := {| keys := ∅; drawn := 0; pending := None |} in
  resolutions (events (router sample_env (sample_request [] [] []) (mret tt)
                         GetAbort s))
  = [ (JObj [ ("error", JStr "access_denied");
              ("error_description", JStr "End-User aborted interaction") ],
       false) ]
  ∧ rendered (events (router sample_env (sample_request [] [] []) (mret tt)
                        GetCallbackGoogle gone)) = [ "repost" ].
Proof.
  intros s gone.
  pose proof (routes_without_prompt_check sample_env
                (sample_request [] [] []) (mret tt) s
                (sample_interaction "consent"
                   (Some [ ("accountId", JStr "u1") ])) eq_refl) as [Ha Hc].
  split; [by rewrite Ha | by rewrite (Hc gone)].
Defined.
